(** * my_site / blog / views.py: the news pipeline

    A shallow embedding of [blog/views.py] and the properties of its
    helper functions, of the entry processor and of the cached feed
    pipeline.

    Python values are modelled as follows.
    - A [str] is a list of Unicode code points ([list N]); [py] turns an
      ASCII literal into such a list.
    - [None] is [None] of an option type; an exception raised out of a
      function is the [None] result of a function into an option type.
    - A dict with a fixed set of keys is a record. *)

From Stdlib Require Import ZArith NArith List Lia Ascii String Bool Zpow_facts.
From stdpp Require Import base option list gmap strings.

Local Open Scope Z_scope.

(** ** Strings *)

Abbreviation str := (list N).

Definition py (s : string) : str :=
  map N_of_ascii (list_ascii_of_string s).

Definition SPACE : N := 32%N.
Definition LT : N := 60%N.
Definition GT : N := 62%N.
Definition AMP : N := 38%N.
Definition HASH : N := 35%N.
Definition SEMI : N := 59%N.

(** [len(s)] as a Python integer. *)
Definition len (s : str) : Z := Z.of_nat (length s).

(** [s[:n]]: a negative bound counts from the end, and the bound is
    clamped to the string. *)
Definition slice_to (n : Z) (s : str) : str :=
  if 0 <=? n then take (Z.to_nat n) s
  else take (length s - Z.to_nat (- n))%nat s.

(** [s[-1]]: the last character; [None] is Python's [IndexError]. *)
Definition last_char (s : str) : option N := last s.

(** The part of [s] before the last occurrence of [sep], if there is one. *)
Fixpoint before_last (sep : N) (s : str) : option str :=
  match s with
  | [] => None
  | c :: r =>
      match before_last sep r with
      | Some p => Some (c :: p)
      | None => if (c =? sep)%N then Some [] else None
      end
  end.

(** [s.rsplit(sep, 1)[0]]: with no occurrence of [sep] the split has the
    one element [s]. *)
Definition rsplit1_head (sep : N) (s : str) : str :=
  default s (before_last sep s).

(** [c in s], as a boolean. *)
Definition has_char (c : N) (s : str) : bool := existsb (N.eqb c) s.

(** ** smart_truncate *)

Definition smart_truncate (content : str) (length : Z) (suffix : str)
  : option str :=
  if len content <=? length then Some content
  else
    let content := slice_to length content in
    match last_char content with
    | None => None
    | Some c =>
        let content :=
          if negb (c =? SPACE)%N then rsplit1_head SPACE content
          else content in
        Some (content ++ suffix)
    end.

Definition default_length : Z := 160.
Definition default_suffix : str := py "...".

(** The call [smart_truncate(content)] with both defaults. *)
Definition smart_truncate_default (content : str) : option str :=
  smart_truncate content default_length default_suffix.

Arguments smart_truncate_default : simpl never.

(** ** clean_text *)

(** *** [re.sub('<[^<]+?>', '', text)] *)

(** After [<] and one character that is not [<]: the lazy quantifier stops
    at the first [>], and gives up at a [<].  The result is the number of
    characters up to and including that [>]. *)
Fixpoint tag_close (s : str) : option nat :=
  match s with
  | [] => None
  | c :: r =>
      if (c =? GT)%N then Some 1%nat
      else if (c =? LT)%N then None
      else S <$> tag_close r
  end.

(** The length of the match of [<[^<]+?>] at the head of [s], if any. *)
Definition tag_match (s : str) : option nat :=
  match s with
  | a :: b :: r =>
      if (a =? LT)%N && negb (b =? LT)%N
      then (fun k => S (S k)) <$> tag_close r
      else None
  | _ => None
  end.

(** The left-to-right scan of [re.sub] with the empty replacement: [skip]
    counts the characters of the current match still to be dropped. *)
Fixpoint sub_tags_from (skip : nat) (s : str) : str :=
  match s with
  | [] => []
  | c :: r =>
      match skip with
      | S k => sub_tags_from k r
      | O =>
          match tag_match s with
          | Some (S k) => sub_tags_from k r
          | _ => c :: sub_tags_from 0 r
          end
      end
  end.

Definition sub_tags (s : str) : str := sub_tags_from 0 s.

(** *** [html.unescape] *)

(** The longest prefix of [s] whose characters satisfy [p], and the rest. *)
Fixpoint span_while (p : N -> bool) (s : str) : str * str :=
  match s with
  | [] => ([], [])
  | c :: r =>
      if p c then let '(a, b) := span_while p r in (c :: a, b)
      else ([], s)
  end.

Definition in_range (lo hi c : N) : bool := ((lo <=? c) && (c <=? hi))%N.

Definition is_dec_digit (c : N) : bool := in_range 48 57 c.
Definition is_hex_digit (c : N) : bool :=
  in_range 48 57 c || in_range 97 102 c || in_range 65 70 c.

(** [[^\t\n\f <&#;]] *)
Definition is_name_char (c : N) : bool :=
  negb (existsb (N.eqb c) [9; 10; 12; SPACE; LT; AMP; HASH; SEMI]%N).

(** The optional [;] that closes a reference. *)
Definition opt_semi (s : str) : str :=
  match s with
  | c :: _ => if (c =? SEMI)%N then [SEMI] else []
  | [] => []
  end.

(** Group 1 of the match of
    [&(#[0-9]+;?|#[xX][0-9a-fA-F]+;?|[^\t\n\f <&#;]{1,32};?)]
    on [&] followed by [s]; all quantifiers are greedy and nothing follows
    the group, so the first alternative that matches is the match. *)
Definition charref_match (s : str) : option str :=
  let numeric :=
    match s with
    | h :: r =>
        if (h =? HASH)%N then
          let '(ds, rest) := span_while is_dec_digit r in
          match ds with
          | _ :: _ => Some (h :: ds ++ opt_semi rest)
          | [] =>
              match r with
              | x :: r' =>
                  if (x =? 120)%N || (x =? 88)%N then
                    let '(hs, rest') := span_while is_hex_digit r' in
                    match hs with
                    | _ :: _ => Some (h :: x :: hs ++ opt_semi rest')
                    | [] => None
                    end
                  else None
              | [] => None
              end
          end
        else None
    | [] => None
    end in
  match numeric with
  | Some g => Some g
  | None =>
      let '(name, _) := span_while is_name_char s in
      let name := take 32 name in
      match name with
      | _ :: _ => Some (name ++ opt_semi (drop (length name) s))
      | [] => None
      end
  end.

(** [s.rstrip(';')] *)
Definition rstrip_semi (s : str) : str :=
  reverse (snd (span_while (N.eqb SEMI) (reverse s))).

Definition digit_value (c : N) : N :=
  if in_range 48 57 c then c - 48
  else if in_range 97 102 c then c - 87
  else if in_range 65 70 c then c - 55
  else 0.

(** The interpreter's cap on the digits of a conversion between [str] and
    [int] in a base that is not a power of two
    ([sys.int_info.default_max_str_digits]). *)
Definition MAX_STR_DIGITS : nat := 4300.

(** [int(s, base)] on a string of digits of that base, for the bases 10
    and 16: [None] is the [ValueError] raised on a decimal string of more
    than 4300 digits, leading zeros counted; base 16 has no cap. *)
Definition int_of (base : N) (s : str) : option N :=
  if (base =? 10)%N && (MAX_STR_DIGITS <? length s)%nat then None
  else Some (fold_left (fun acc c => acc * base + digit_value c)%N s 0%N).

Definition _invalid_charrefs : list (N * N) :=
  [ (0x00, 0xfffd); (0x0d, 0x000d); (0x80, 0x20ac); (0x81, 0x0081);
    (0x82, 0x201a); (0x83, 0x0192); (0x84, 0x201e); (0x85, 0x2026);
    (0x86, 0x2020); (0x87, 0x2021); (0x88, 0x02c6); (0x89, 0x2030);
    (0x8a, 0x0160); (0x8b, 0x2039); (0x8c, 0x0152); (0x8d, 0x008d);
    (0x8e, 0x017d); (0x8f, 0x008f); (0x90, 0x0090); (0x91, 0x2018);
    (0x92, 0x2019); (0x93, 0x201c); (0x94, 0x201d); (0x95, 0x2022);
    (0x96, 0x2013); (0x97, 0x2014); (0x98, 0x02dc); (0x99, 0x2122);
    (0x9a, 0x0161); (0x9b, 0x203a); (0x9c, 0x0153); (0x9d, 0x009d);
    (0x9e, 0x017e); (0x9f, 0x0178) ]%N.

Definition _invalid_codepoints : list N :=
  [ 0x1; 0x2; 0x3; 0x4; 0x5; 0x6; 0x7; 0x8; 0xb;
    0xe; 0xf; 0x10; 0x11; 0x12; 0x13; 0x14; 0x15; 0x16;
    0x17; 0x18; 0x19; 0x1a; 0x1b; 0x1c; 0x1d; 0x1e; 0x1f;
    0x7f; 0x80; 0x81; 0x82; 0x83; 0x84; 0x85; 0x86; 0x87;
    0x88; 0x89; 0x8a; 0x8b; 0x8c; 0x8d; 0x8e; 0x8f; 0x90;
    0x91; 0x92; 0x93; 0x94; 0x95; 0x96; 0x97; 0x98; 0x99;
    0x9a; 0x9b; 0x9c; 0x9d; 0x9e; 0x9f; 0xfdd0; 0xfdd1; 0xfdd2;
    0xfdd3; 0xfdd4; 0xfdd5; 0xfdd6; 0xfdd7; 0xfdd8; 0xfdd9; 0xfdda; 0xfddb;
    0xfddc; 0xfddd; 0xfdde; 0xfddf; 0xfde0; 0xfde1; 0xfde2; 0xfde3; 0xfde4;
    0xfde5; 0xfde6; 0xfde7; 0xfde8; 0xfde9; 0xfdea; 0xfdeb; 0xfdec; 0xfded;
    0xfdee; 0xfdef; 0xfffe; 0xffff; 0x1fffe; 0x1ffff; 0x2fffe; 0x2ffff;
    0x3fffe; 0x3ffff; 0x4fffe; 0x4ffff; 0x5fffe; 0x5ffff; 0x6fffe; 0x6ffff;
    0x7fffe; 0x7ffff; 0x8fffe; 0x8ffff; 0x9fffe; 0x9ffff; 0xafffe; 0xaffff;
    0xbfffe; 0xbffff; 0xcfffe; 0xcffff; 0xdfffe; 0xdffff; 0xefffe; 0xeffff;
    0xffffe; 0xfffff; 0x10fffe; 0x10ffff ]%N.

Definition lookup_charref (num : N) : option N :=
  snd <$> find (fun kv => (fst kv =? num)%N) _invalid_charrefs.

Section Model.

(** The table [html.entities.html5] of the named character references, as
    the lookup of a name (with its [;] when it has one). *)
Variable html5 : str -> option str.

(** The loop [for x in range(len(s)-1, 1, -1)] of [_replace_charref],
    entered at [x]: the longest proper prefix of [s] of at least two
    characters that is a name, followed by what is left of [s]. *)
Fixpoint longest_name (s : str) (x : nat) : option str :=
  match x with
  | O => None
  | S x' =>
      if (2 <=? x)%nat then
        match html5 (take x s) with
        | Some v => Some (v ++ drop x s)
        | None => longest_name s x'
        end
      else None
  end.

(** [None] when [int] raises on the digits of a numeric reference. *)
Definition _replace_charref (s : str) : option str :=
  match s with
  | c :: r =>
      if (c =? HASH)%N then
        num ←
          match r with
          | x :: r' =>
              if (x =? 120)%N || (x =? 88)%N
              then int_of 16 (rstrip_semi r')
              else int_of 10 (rstrip_semi r)
          | [] => Some 0%N
          end;
        Some
          match lookup_charref num with
          | Some v => [v]
          | None =>
              if ((0xD800 <=? num) && (num <=? 0xDFFF) || (0x10FFFF <? num))%N
              then [0xFFFD%N]
              else if existsb (N.eqb num) _invalid_codepoints then []
              else [num]
          end
      else
        Some
          match html5 s with
          | Some v => v
          | None =>
              match longest_name s (length s - 1) with
              | Some v => v
              | None => AMP :: s
              end
          end
  | [] => Some []
  end.

(** The scan of [_charref.sub(_replace_charref, s)]; an error raised by
    the replacement function leaves the scan. *)
Fixpoint charref_sub_from (skip : nat) (s : str) : option str :=
  match s with
  | [] => Some []
  | c :: r =>
      match skip with
      | S k => charref_sub_from k r
      | O =>
          if (c =? AMP)%N then
            match charref_match r with
            | Some g =>
                replacement ← _replace_charref g;
                rest ← charref_sub_from (length g) r;
                Some (replacement ++ rest)
            | None => cons c <$> charref_sub_from 0 r
            end
          else cons c <$> charref_sub_from 0 r
      end
  end.

Definition unescape (s : str) : option str :=
  if has_char AMP s then charref_sub_from 0 s else Some s.

(** *** [" ".join(text.split())] *)

(** The characters [str.split()] treats as white space. *)
Definition is_space (c : N) : bool :=
  in_range 0x09 0x0D c || in_range 0x1C 0x20 c || (c =? 0x85)%N ||
  (c =? 0xA0)%N || (c =? 0x1680)%N || in_range 0x2000 0x200A c ||
  (c =? 0x2028)%N || (c =? 0x2029)%N || (c =? 0x202F)%N ||
  (c =? 0x205F)%N || (c =? 0x3000)%N.

(** A word: not empty, and no white space in it. *)
Definition word (w : str) : Prop :=
  w <> [] /\ Forall (fun c => is_space c = false) w.

(** [split_from w s]: the words of [s], where [w] is the word being read. *)
Fixpoint split_from (w : str) (s : str) : list str :=
  match s with
  | [] => match w with [] => [] | _ => [w] end
  | c :: r =>
      if is_space c then
        match w with
        | [] => split_from [] r
        | _ => w :: split_from [] r
        end
      else split_from (w ++ [c]) r
  end.

Definition split (s : str) : list str := split_from [] s.

Fixpoint join (sep : str) (ws : list str) : str :=
  match ws with
  | [] => []
  | [w] => w
  | w :: ws' => w ++ sep ++ join sep ws'
  end.

(** [None] is the [ValueError] that leaves [html.unescape]: nothing in
    [clean_text] catches it. *)
Definition clean_text (text : option str) : option str :=
  match text with
  | None | Some [] => Some []
  | Some text =>
      let text := sub_tags text in
      text ← unescape text;
      let text := join [SPACE] (split text) in
      Some text
  end.

End Model.

Arguments clean_text : simpl never.

(** A part of the table [html5]: the five references of plain HTML text,
    with and without the closing [;]. *)
Definition html5_basic (name : str) : option str :=
  snd <$> find (fun kv => bool_decide (fst kv = name))
    [ (py "amp;", [AMP]); (py "amp", [AMP]); (py "lt;", [LT]);
      (py "lt", [LT]); (py "gt;", [GT]); (py "gt", [GT]);
      (py "quot;", [34%N]); (py "quot", [34%N]);
      (py "nbsp;", [160%N]); (py "nbsp", [160%N]) ].

(** ** parse_date *)

(** *** [datetime.strptime(date_string, "%Y-%m-%dT%H:%M:%SZ")] *)

(** The first code point of every run of ten decimal digits of the
    interpreter's Unicode database: what [\d] matches and [int] reads. *)
Definition decimal_blocks : list N :=
  [ 0x30; 0x660; 0x6f0; 0x7c0; 0x966; 0x9e6; 0xa66; 0xae6;
    0xb66; 0xbe6; 0xc66; 0xce6; 0xd66; 0xde6; 0xe50; 0xed0;
    0xf20; 0x1040; 0x1090; 0x17e0; 0x1810; 0x1946; 0x19d0; 0x1a80;
    0x1a90; 0x1b50; 0x1bb0; 0x1c40; 0x1c50; 0xa620; 0xa8d0; 0xa900;
    0xa9d0; 0xa9f0; 0xaa50; 0xabf0; 0xff10; 0x104a0; 0x10d30; 0x11066;
    0x110f0; 0x11136; 0x111d0; 0x112f0; 0x11450; 0x114d0; 0x11650; 0x116c0;
    0x11730; 0x118e0; 0x11950; 0x11c50; 0x11d50; 0x11da0; 0x16a60; 0x16ac0;
    0x16b50; 0x1d7ce; 0x1d7d8; 0x1d7e2; 0x1d7ec; 0x1d7f6; 0x1e140; 0x1e2f0;
    0x1e950; 0x1fbf0 ]%N.

Definition decimal_value (c : N) : option N :=
  (fun b => c - b)%N
    <$> find (fun b => (b <=? c) && (c <? b + 10))%N decimal_blocks.

(** The character class [\d]. *)
Definition digit (c : N) : bool := bool_decide (is_Some (decimal_value c)).

(** The character class [[lo-hi]] of ASCII digits. *)
Definition digits (lo hi : N) (c : N) : bool := in_range (48 + lo) (48 + hi) c.

(** [int(s)] on the text of a group: every digit counts with its decimal
    value and the leading space of a day is skipped. *)
Definition int_of_group (s : str) : N :=
  fold_left
    (fun acc c => match decimal_value c with
                  | Some d => acc * 10 + d
                  | None => acc
                  end)%N s 0%N.

(** The regular expressions [strptime] builds are sequences of literal
    characters and of named groups; a group is a choice between sequences
    of character classes. *)
Inductive re_item : Type :=
  | Lit (c : N)
  | Group (alts : list (list (N -> bool))).

Fixpoint match_classes (cls : list (N -> bool)) (s : str)
  : option (str * str) :=
  match cls with
  | [] => Some ([], s)
  | p :: cls' =>
      match s with
      | c :: r =>
          if p c then
            match match_classes cls' r with
            | Some (g, rest) => Some (c :: g, rest)
            | None => None
            end
          else None
      | [] => None
      end
  end.

(** The expression is compiled with [re.IGNORECASE]; of its literals only
    [T] and [Z] have another case. *)
Definition lower (c : N) : N := if in_range 65 90 c then (c + 32)%N else c.

(** [match_items items s]: the texts of the groups and the unmatched rest
    of [s], for the first way to match in the order of the alternatives
    (a later alternative is tried when the rest of the expression fails). *)
Fixpoint match_items (items : list re_item) (s : str)
  : option (list str * str) :=
  match items with
  | [] => Some ([], s)
  | Lit l :: items' =>
      match s with
      | c :: r => if (lower c =? lower l)%N then match_items items' r else None
      | [] => None
      end
  | Group alts :: items' =>
      (fix try (alts : list (list (N -> bool))) : option (list str * str) :=
         match alts with
         | [] => None
         | a :: alts' =>
             match match_classes a s with
             | Some (g, rest) =>
                 match match_items items' rest with
                 | Some (gs, e) => Some (g :: gs, e)
                 | None => try alts'
                 end
             | None => try alts'
             end
         end) alts
  end.

Definition is_char (c : N) : N -> bool := N.eqb c.

(** The expression of the format ["%Y-%m-%dT%H:%M:%SZ"]:
    [(?P<Y>\d\d\d\d)-(?P<m>1[0-2]|0[1-9]|[1-9])-]
    [(?P<d>3[0-1]|[1-2]\d|0[1-9]|[1-9]| [1-9])T(?P<H>2[0-3]|[0-1]\d|\d):]
    [(?P<M>[0-5]\d|\d):(?P<S>6[0-1]|[0-5]\d|\d)Z]. *)
Definition group_Y : list (list (N -> bool)) :=
  [[digit; digit; digit; digit]].
Definition group_m : list (list (N -> bool)) :=
  [[is_char 49; digits 0 2]; [is_char 48; digits 1 9]; [digits 1 9]]%N.
Definition group_d : list (list (N -> bool)) :=
  [[is_char 51; digits 0 1]; [digits 1 2; digit]; [is_char 48; digits 1 9];
   [digits 1 9]; [is_char SPACE; digits 1 9]]%N.
Definition group_H : list (list (N -> bool)) :=
  [[is_char 50; digits 0 3]; [digits 0 1; digit]; [digit]]%N.
Definition group_M : list (list (N -> bool)) :=
  [[digits 0 5; digit]; [digit]]%N.
Definition group_S : list (list (N -> bool)) :=
  [[is_char 54; digits 0 1]; [digits 0 5; digit]; [digit]]%N.

Definition format_regex : list re_item :=
  [ Group group_Y; Lit 45; Group group_m; Lit 45; Group group_d; Lit 84;
    Group group_H; Lit 58; Group group_M; Lit 58; Group group_S; Lit 90 ]%N.

(** The first alternative of a group that matches at the head of [s]. *)
Fixpoint first_alt (alts : list (list (N -> bool))) (s : str)
  : option (str * str) :=
  match alts with
  | [] => None
  | a :: alts' =>
      match match_classes a s with
      | Some r => Some r
      | None => first_alt alts' s
      end
  end.

Record datetime : Type := mk_datetime
  { year : N; month : N; day : N; hour : N; minute : N; second : N }.

Definition is_leap (y : N) : bool :=
  ((y mod 4 =? 0) && negb (y mod 100 =? 0) || (y mod 400 =? 0))%N.

Definition days_in_month (y m : N) : N :=
  if (m =? 2)%N then (if is_leap y then 29 else 28)%N
  else if existsb (N.eqb m) [4; 6; 9; 11]%N then 30%N
  else 31%N.

(** The checks of the [date] and [datetime] constructors that the
    expression leaves open: the year is at least 1, the day exists in the
    month and the second is at most 59. *)
Definition valid_datetime (dt : datetime) : bool :=
  ((1 <=? year dt) && (year dt <=? 9999) &&
   (1 <=? month dt) && (month dt <=? 12) &&
   (1 <=? day dt) && (day dt <=? days_in_month (year dt) (month dt)) &&
   (hour dt <=? 23) && (minute dt <=? 59) && (second dt <=? 59))%N.

(** [None] is the [ValueError] of a text that does not match, of one with
    unconverted data after the match, or of a rejected field. *)
Definition strptime (date_string : str) : option datetime :=
  match match_items format_regex date_string with
  | Some ([gY; gm; gd; gH; gM; gS], []) =>
      let dt :=
        mk_datetime (int_of_group gY) (int_of_group gm) (int_of_group gd)
          (int_of_group gH) (int_of_group gM) (int_of_group gS) in
      if valid_datetime dt then Some dt else None
  | _ => None
  end.

(** *** [dt.strftime("%d %b %Y")] *)

Definition two_digits (n : N) : str := [48 + n / 10; 48 + n mod 10]%N.

Fixpoint decimal_from (fuel : nat) (n : N) (acc : str) : str :=
  match fuel with
  | O => acc
  | S fuel' =>
      if (n <? 10)%N then (48 + n)%N :: acc
      else decimal_from fuel' (n / 10)%N ((48 + n mod 10)%N :: acc)
  end.

(** A number in decimal, without padding (as the C library prints [%Y]). *)
Definition decimal (n : N) : str := decimal_from (S (N.size_nat n)) n [].

(** [%b] in the C locale. *)
Definition month_abbr (m : N) : str :=
  nth (N.to_nat m - 1)
    (map py ["Jan"; "Feb"; "Mar"; "Apr"; "May"; "Jun";
             "Jul"; "Aug"; "Sep"; "Oct"; "Nov"; "Dec"]%string) [].

Definition strftime (dt : datetime) : str :=
  two_digits (day dt) ++ [SPACE] ++ month_abbr (month dt) ++ [SPACE]
  ++ decimal (year dt).

Definition parse_date (date_string : str) : str :=
  match strptime date_string with
  | Some dt => strftime dt
  | None => date_string
  end.

(** The text of a date and time in the source format with every field
    padded with zeros, as feeds publish it. *)
Definition four_digits (n : N) : str :=
  [48 + n / 1000; 48 + (n / 100) mod 10; 48 + (n / 10) mod 10; 48 + n mod 10]%N.

Definition isoformat (dt : datetime) : str :=
  four_digits (year dt) ++ 45%N :: two_digits (month dt)
  ++ 45%N :: two_digits (day dt) ++ 84%N :: two_digits (hour dt)
  ++ 58%N :: two_digits (minute dt) ++ 58%N :: two_digits (second dt)
  ++ [90%N].

(** ** The libraries the views call *)

(** [urllib.parse.urlparse] gives a result of which the views read the
    query. *)
Record ParseResult : Type := { query : str }.

(** The response of [requests.get]. *)
Record Response : Type := { status_code : Z; response_content : list N }.

(** An entry of the feed, with the attributes the views read;
    [entry.content] is a list of which they read [content[0].value]. *)
Record ContentItem : Type := { value : str }.
Record Entry : Type :=
  { title : str; link : str; published : str; content : list ContentItem }.

(** The result of [feedparser.parse]; without an HTTP status the attribute
    [status] is missing and reading it raises. *)
Record Feed : Type := { status : option Z; entries : list Entry }.

(** The functions of the libraries, taken as they are: a call that raises
    gives [None].
    - [html5_names]: the table [html.entities.html5].
    - [urlparse], [parse_qs]: of [urllib.parse].
    - [requests_get url]: [requests.get(url, headers=headers, timeout=2)],
      with the fixed headers of the views.
    - [BeautifulSoup markup]: [BeautifulSoup(markup, 'html.parser')].
    - [find_meta_property soup p]: [soup.find("meta", property=p)];
      [find_meta_name soup n]: [soup.find("meta", attrs={"name": n})];
      [tag_get tag k]: [tag.get(k)].
    - [feedparser_parse]: [feedparser.parse].
    The answers of the network are functions of the request: a statement
    speaks of one state of the web. *)
Class Library : Type := {
  html5_names : str -> option str;
  urlparse : str -> option ParseResult;
  parse_qs : str -> option (gmap str (list str));
  requests_get : str -> option Response;
  Soup : Type;
  Tag : Type;
  BeautifulSoup : list N -> option Soup;
  find_meta_property : Soup -> str -> option Tag;
  find_meta_name : Soup -> str -> option Tag;
  tag_get : Tag -> str -> option str;
  feedparser_parse : str -> Feed
}.

(** The dict [data] of [scrape_article_data] and the dict
    [process_single_post] returns. *)
Record ScrapedData : Type := { image : option str; description : option str }.

(** [{"image": None, "description": None}] *)
Definition no_data : ScrapedData := {| image := None; description := None |}.

Record PostRecord : Type :=
  { post_title : str; post_date : str; post_excerpt : str; post_link : str;
    post_image : str }.

(** The cache of the framework, [django.core.cache.cache]: every key holds
    a value and the time at which it expires.  The state of the world also
    has the clock and the number of times the feed was fetched.  A call
    takes no time; [tick] lets time pass between calls. *)
Record CacheEntry : Type := { cached_value : list PostRecord; expires_at : Z }.

Record World : Type :=
  { now : Z; cache : gmap str CacheEntry; feed_fetches : nat }.

(** [cache.get(key)]: the value, unless the key is absent or expired. *)
Definition cache_get (key : str) (w : World) : option (list PostRecord) :=
  match cache w !! key with
  | Some e => if now w <? expires_at e then Some (cached_value e) else None
  | None => None
  end.

(** [cache.set(key, value, timeout)] *)
Definition cache_set (key : str) (v : list PostRecord) (timeout : Z)
    (w : World) : World :=
  {| now := now w;
     cache := <[key := {| cached_value := v; expires_at := now w + timeout |}]>
                (cache w);
     feed_fetches := feed_fetches w |}.

(** One more fetch of the feed. *)
Definition count_fetch (w : World) : World :=
  {| now := now w; cache := cache w; feed_fetches := S (feed_fetches w) |}.

(** Time passing between two calls. *)
Definition tick (d : Z) (w : World) : World :=
  {| now := now w + d; cache := cache w; feed_fetches := feed_fetches w |}.

(** Truth value of a Python value that is [None] or a string. *)
Definition truthy (v : option str) : bool :=
  match v with
  | Some (_ :: _) => true
  | _ => false
  end.

Definition PLACEHOLDER : str :=
  py "https://placehold.co/600x400/E30613/FFFFFF?text=PSOE+News".

Definition RSS_URL : str :=
  py "https://www.google.com/alerts/feeds/16780431236428968089/13199558778761765910".

Definition CACHE_KEY : str := py "psoe_news".

Section Views.

Context `{Library}.

(** ** get_real_url *)

(** The body of the [try]: [None] when a call raises, or when the list of
    values is empty and [[0]] raises. *)
Definition get_real_url_try (google_url : str) : option str :=
  parsed ← urlparse google_url;
  qs ← parse_qs (query parsed);
  real_url ← head (default [None] (map Some <$> qs !! py "url"));
  Some (if truthy real_url then default [] real_url else google_url).

Definition get_real_url (google_url : str) : str :=
  default google_url (get_real_url_try google_url).

(** ** scrape_article_data *)

(** The [try] covers the request, the parsing and the two calls of
    [clean_text]: when one of them raises, the [except] passes and [data]
    is returned as it stands then, with the image if one was found and
    without a description.  The lookups in the parsed document return a
    tag or [None] and do not raise; a tag is true whatever its
    attributes. *)
Definition scrape_article_data (url : option str) : ScrapedData :=
  let data := no_data in
  if negb (truthy url) then data
  else
    match requests_get (default [] url) with
    | None => data
    | Some response =>
        if status_code response =? 200 then
          match BeautifulSoup (response_content response) with
          | None => data
          | Some soup =>
              let data :=
                match find_meta_property soup (py "og:image") with
                | Some og_image =>
                    {| image := tag_get og_image (py "content");
                       description := description data |}
                | None => data
                end in
              match find_meta_property soup (py "og:description") with
              | Some og_desc =>
                  match clean_text html5_names
                          (tag_get og_desc (py "content")) with
                  | Some text =>
                      {| image := image data; description := Some text |}
                  | None => data
                  end
              | None =>
                  match find_meta_name soup (py "description") with
                  | Some meta_desc =>
                      match clean_text html5_names
                              (tag_get meta_desc (py "content")) with
                      | Some text =>
                          {| image := image data; description := Some text |}
                      | None => data
                      end
                  | None => data
                  end
              end
          end
        else data
    end.

(** ** process_single_post *)

(** [None] when a call of [clean_text] raises ([ValueError]) or the entry
    has no content and [entry.content[0]] raises ([IndexError]): nothing
    in [process_single_post] catches them. *)
Definition process_single_post (entry : Entry) : option PostRecord :=
  clean_title ← clean_text html5_names (Some (title entry));
  let real_link := get_real_url (link entry) in
  let scraped_data := scrape_article_data (Some real_link) in
  final_excerpt ←
    (if truthy (description scraped_data)
     then smart_truncate_default (default [] (description scraped_data))
     else
       item ← head (content entry);
       rss_snippet ← clean_text html5_names (Some (value item));
       smart_truncate_default rss_snippet);
  let final_image := image scraped_data in
  let final_image :=
    if negb (truthy final_image) then PLACEHOLDER
    else default [] final_image in
  Some {| post_title := clean_title;
          post_date := parse_date (published entry);
          post_excerpt := final_excerpt;
          post_link := real_link;
          post_image := final_image |}.

(** ** get_cached_news *)

(** The result is [None] when the call raises.  [executor.map] gives the
    results in the order of the entries, and the first worker that raised
    makes [list(results)] raise. *)
Definition get_cached_news (w : World) : option (list PostRecord) * World :=
  match cache_get CACHE_KEY w with
  | Some (p :: ps) => (Some (p :: ps), w)
  | _ =>
      let feed := feedparser_parse RSS_URL in
      let w := count_fetch w in
      match status feed with
      | None => (None, w)
      | Some st =>
          if negb (st =? 200) then (Some [], w)
          else
            match mapM process_single_post (entries feed) with
            | None => (None, w)
            | Some posts => (Some posts, cache_set CACHE_KEY posts 900 w)
            end
      end
  end.

(** ** The views *)

(** The context handed to [render]. *)
Definition index (w : World) : option (list PostRecord) * World :=
  let '(all_posts, w) := get_cached_news w in
  (take 6 <$> all_posts, w).

Definition posts (w : World) : option (list PostRecord) * World :=
  get_cached_news w.

End Views.

(** ** A sample web

    The answers of the libraries on a small web: a feed of two entries,
    the first linking through a redirect to a page with an image and a
    description, the second linking to a page whose request times out.
    The status of the feed is left open. *)

Definition sample_wrapped : str :=
  py "https://alerts.example/r?url=https%3A%2F%2Fnews.example%2Fa".
Definition sample_query : str := py "url=https%3A%2F%2Fnews.example%2Fa".
Definition sample_page_a : str := py "https://news.example/a".
Definition sample_page_b : str := py "https://news.example/b".
Definition sample_markup_a : list N :=
  py "<meta property='og:image' content='https://news.example/a.png'><meta property='og:description' content='Full summary.'>".

Definition sample_entries : list Entry :=
  [ {| title := py "<b>First</b> story"; link := sample_wrapped;
       published := py "2024-01-07T10:00:00Z";
       content := [ {| value := py "Snippet of the first story" |} ] |};
    {| title := py "Second story"; link := sample_page_b;
       published := py "yesterday";
       content := [ {| value := py "A   feed &amp; snippet" |} ] |} ].

(** The value of an attribute in the attributes of a tag. *)
Definition attribute (k : str) (attrs : list (str * str)) : option str :=
  snd <$> find (fun kv => bool_decide (fst kv = k)) attrs.

Definition sample_library (feed_status : Z) : Library :=
  {| html5_names := html5_basic;
     urlparse u :=
       if decide (u = sample_wrapped) then Some {| query := sample_query |}
       else if decide (u = sample_page_b) then Some {| query := [] |}
       else None;
     parse_qs q :=
       if decide (q = sample_query)
       then Some {[ py "url" := [sample_page_a] ]}
       else Some ∅;
     requests_get u :=
       if decide (u = sample_page_a)
       then Some {| status_code := 200; response_content := sample_markup_a |}
       else None;
     Soup := list (list (str * str));
     Tag := list (str * str);
     BeautifulSoup markup :=
       Some (if decide (markup = sample_markup_a)
             then [ [ (py "property", py "og:image");
                      (py "content", py "https://news.example/a.png") ];
                    [ (py "property", py "og:description");
                      (py "content", py "Full summary.") ] ]
             else []);
     find_meta_property soup p :=
       find (fun t => bool_decide (attribute (py "property") t = Some p)) soup;
     find_meta_name soup n :=
       find (fun t => bool_decide (attribute (py "name") t = Some n)) soup;
     tag_get t k := attribute k t;
     feedparser_parse _ :=
       {| status := Some feed_status; entries := sample_entries |} |}.

Definition empty_world : World :=
  {| now := 0; cache := ∅; feed_fetches := 0 |}.

(** The two records the pipeline makes of the sample feed. *)
Definition sample_posts : list PostRecord :=
  [ {| post_title := py "First story"; post_date := py "07 Jan 2024";
       post_excerpt := py "Full summary."; post_link := sample_page_a;
       post_image := py "https://news.example/a.png" |};
    {| post_title := py "Second story"; post_date := py "yesterday";
       post_excerpt := py "A feed & snippet";
       post_link := sample_page_b; post_image := PLACEHOLDER |} ].

(** Sample texts: a word of 160 letters followed by a space and another
    word, and a single word of 161 letters. *)
Definition LETTER_A : N := 97%N.
Definition long_word_then_space : str := repeat LETTER_A 160 ++ py " b".
Definition one_long_word : str := repeat LETTER_A 161.


(** Sample markup: a text with tags, references and runs of white space,
    a tag nested in a tag, and a reference behind a reference. *)
Definition sample_markup : str :=
  py "  Hello <b>big</b>   &quot;world&quot; ".
Definition nested_tag : str := py "<<b>b>".
Definition escaped_entity : str := py "&amp;lt;".

(** The fields of a date and time that the expression of the format can
    match when they are padded with zeros: it lets 60 and 61 pass as
    seconds and any day up to 31 in any month. *)
Definition fits_pattern (dt : datetime) : bool :=
  ((year dt <=? 9999) && (1 <=? month dt) && (month dt <=? 12) &&
   (1 <=? day dt) && (day dt <=? 31) && (hour dt <=? 23) &&
   (minute dt <=? 59) && (second dt <=? 61))%N.

(** A code point a numeric reference stands for as it is, and that is not
    white space: not a key of [_invalid_charrefs], not a surrogate, not
    beyond U+10FFFF and not in [_invalid_codepoints]. *)
Definition plain_code_point (c : N) : bool :=
  bool_decide (lookup_charref c = None) &&
  negb ((0xD800 <=? c) && (c <=? 0xDFFF) || (0x10FFFF <? c))%N &&
  negb (existsb (N.eqb c) _invalid_codepoints) &&
  negb (is_space c).

(** A web of one page: every request is answered with status 200 and a
    document that has the meta tags [tags]; no URL can be parsed and the
    feed is empty. *)
Definition page_library (tags : list (list (str * str))) : Library :=
  {| html5_names := html5_basic;
     urlparse _ := None;
     parse_qs _ := None;
     requests_get _ := Some {| status_code := 200; response_content := [] |};
     Soup := list (list (str * str));
     Tag := list (str * str);
     BeautifulSoup _ := Some tags;
     find_meta_property soup p :=
       find (fun t => bool_decide (attribute (py "property") t = Some p)) soup;
     find_meta_name soup n :=
       find (fun t => bool_decide (attribute (py "name") t = Some n)) soup;
     tag_get t k := attribute k t;
     feedparser_parse _ := {| status := Some 200; entries := [] |} |}.

(** A page whose [og:description] tag has no content, beside a standard
    description. *)
Definition bare_og_tags : list (list (str * str)) :=
  [ [ (py "property", py "og:description") ];
    [ (py "name", py "description"); (py "content", py "Standard text") ] ].

(** A web that only has a feed: every request raises. *)
Definition feed_library (feed : Feed) : Library :=
  {| html5_names := html5_basic;
     urlparse _ := None;
     parse_qs _ := None;
     requests_get _ := None;
     Soup := unit;
     Tag := unit;
     BeautifulSoup _ := None;
     find_meta_property _ _ := None;
     find_meta_name _ _ := None;
     tag_get _ _ := None;
     feedparser_parse _ := feed |}.

(** An entry without content. *)
Definition bare_entry : Entry :=
  {| title := py "Bare"; link := sample_page_b; published := py "today";
     content := [] |}.

(** A decimal reference of 4301 digits, one more than [int] converts,
    and a page that has it as the content of its [og:description] tag,
    beside an image and a standard description. *)
Definition overlong_reference : str :=
  AMP :: HASH :: repeat 49%N 4301 ++ [SEMI].

Definition overlong_og_tags : list (list (str * str)) :=
  [ [ (py "property", py "og:image");
      (py "content", py "https://news.example/a.png") ];
    [ (py "property", py "og:description");
      (py "content", overlong_reference) ];
    [ (py "name", py "description"); (py "content", py "Standard text") ] ].

(** An entry whose title holds that reference; its page times out on the
    sample web and it has one content item. *)
Definition overlong_title_entry : Entry :=
  {| title := overlong_reference; link := sample_page_b;
     published := py "yesterday";
     content := [ {| value := py "A feed snippet" |} ] |}.

(** The second entry of the sample feed. *)
Definition sample_second_entry : Entry :=
  {| title := py "Second story"; link := sample_page_b;
     published := py "yesterday";
     content := [ {| value := py "A   feed &amp; snippet" |} ] |}.

(** A text in which white space is tidy: every white-space character is a
    space that is not the first character and is followed by a character
    that is not white space (so no space leads, trails or repeats). *)
Definition tidy (o : str) : Prop :=
  forall i c,
    o !! i = Some c -> is_space c = true ->
    c = SPACE /\ (0 < i)%nat /\
    exists d, o !! S i = Some d /\ is_space d = false.

(* ================================================================== *)
(** * Properties *)
(* ================================================================== *)

(** ** Truncator *)

Lemma before_last_Some sep s p :
  before_last sep s = Some p ->
  exists q, s = p ++ sep :: q /\ sep ∉ q.
Proof.
  revert p. induction s as [|c r IH]; intros p; simpl; [discriminate|].
  destruct (before_last sep r) as [p'|] eqn:E.
  - intros [= <-]. destruct (IH p' eq_refl) as (q & -> & Hq).
    exists q. split; [reflexivity|assumption].
  - destruct (N.eqb_spec c sep) as [->|Hne]; [|discriminate].
    intros [= <-]. exists r. split; [reflexivity|].
    clear IH. induction r as [|d r IHr]; [apply not_elem_of_nil|].
    simpl in E. destruct (before_last sep r); [discriminate|].
    destruct (N.eqb_spec d sep); [discriminate|].
    rewrite not_elem_of_cons. split; [congruence|]. apply IHr. reflexivity.
Qed.

Lemma before_last_None sep s :
  before_last sep s = None <-> sep ∉ s.
Proof.
  induction s as [|c r IH]; simpl.
  - split; [intros _; apply not_elem_of_nil|reflexivity].
  - rewrite not_elem_of_cons. destruct (before_last sep r) as [p|].
    + split; [discriminate|]. intros [_ H]. apply IH in H. discriminate.
    + destruct (N.eqb_spec c sep) as [->|Hne].
      * split; [discriminate|]. intros [H _]. congruence.
      * split; [|reflexivity]. intros _. split; [congruence|]. apply IH.
        reflexivity.
Qed.

Lemma rsplit1_head_length sep s :
  (length (rsplit1_head sep s) <= length s)%nat.
Proof.
  unfold rsplit1_head. destruct (before_last sep s) as [p|] eqn:E; simpl.
  - apply before_last_Some in E as (q & -> & _). rewrite length_app. lia.
  - lia.
Qed.

Lemma rsplit1_head_no_sep sep s :
  sep ∉ s -> rsplit1_head sep s = s.
Proof.
  intros H. unfold rsplit1_head.
  apply before_last_None in H. rewrite H. reflexivity.
Qed.

Lemma slice_to_nonneg n s :
  0 <= n -> slice_to n s = take (Z.to_nat n) s.
Proof.
  intros H. unfold slice_to. destruct (Z.leb_spec 0 n); [reflexivity|lia].
Qed.

(** A text at or under the limit is returned as it is. *)
Lemma smart_truncate_short content n suffix :
  len content <= n ->
  smart_truncate content n suffix = Some content.
Proof.
  intros H. unfold smart_truncate.
  destruct (Z.leb_spec (len content) n); [reflexivity|lia].
Qed.

(** For a limit that is not negative the result is never longer than
    [n + len(suffix)]. *)
Lemma smart_truncate_bounded content n suffix r :
  0 <= n ->
  smart_truncate content n suffix = Some r ->
  len r <= n + len suffix.
Proof.
  intros Hl. unfold smart_truncate.
  destruct (Z.leb_spec (len content) n) as [Hle|Hgt].
  - intros [= <-]. unfold len in *. lia.
  - rewrite slice_to_nonneg by assumption.
    destruct (last_char _) as [c|]; [|discriminate].
    intros [= <-]. unfold len in *. rewrite length_app.
    assert (length (take (Z.to_nat n) content) <= Z.to_nat n)%nat
      by (rewrite length_take; lia).
    destruct (negb _).
    + pose proof (rsplit1_head_length SPACE (take (Z.to_nat n) content)).
      lia.
    + lia.
Qed.

(** With a positive limit the function always returns. *)
Lemma smart_truncate_total content n suffix :
  0 < n -> is_Some (smart_truncate content n suffix).
Proof.
  intros Hl. unfold smart_truncate.
  destruct (Z.leb_spec (len content) n) as [Hle|Hgt]; [eauto|].
  rewrite slice_to_nonneg by lia. unfold last_char.
  destruct (last _) as [c|] eqn:E; [eauto|].
  apply last_None in E. apply (f_equal length) in E.
  rewrite length_take in E. unfold len in Hgt. simpl in E. lia.
Qed.

(** A cut segment without any space is kept whole. *)
Lemma smart_truncate_no_space content n suffix :
  0 < n < len content ->
  SPACE ∉ take (Z.to_nat n) content ->
  smart_truncate content n suffix
  = Some (take (Z.to_nat n) content ++ suffix).
Proof.
  intros [Hl Hgt] Hns. unfold smart_truncate.
  destruct (Z.leb_spec (len content) n) as [Hle|_]; [lia|].
  rewrite slice_to_nonneg by lia. unfold last_char.
  destruct (last _) as [c|] eqn:E.
  - rewrite rsplit1_head_no_sep by assumption. destruct (negb _); reflexivity.
  - apply last_None in E. apply (f_equal length) in E.
    rewrite length_take in E. unfold len in Hgt. simpl in E. lia.
Qed.

Lemma has_char_false c s : has_char c s = false <-> c ∉ s.
Proof.
  unfold has_char. induction s as [|d r IH]; simpl.
  - split; [intros _; apply not_elem_of_nil|reflexivity].
  - rewrite not_elem_of_cons, orb_false_iff, IH.
    destruct (N.eqb_spec c d); intuition congruence.
Qed.

(** When the cut segment has a space, what stands before the suffix is a
    prefix of the text that ends in a space or is followed by one in the
    text: no word is split. *)
Lemma smart_truncate_word_boundary content n suffix :
  0 < n < len content ->
  SPACE ∈ take (Z.to_nat n) content ->
  exists p rest,
    smart_truncate content n suffix = Some (p ++ suffix) /\
    content = p ++ rest /\
    (last p = Some SPACE \/ head rest = Some SPACE).
Proof.
  intros [Hl Hgt] Hin. unfold smart_truncate.
  destruct (Z.leb_spec (len content) n) as [Hle|_]; [lia|].
  rewrite slice_to_nonneg by lia. unfold last_char.
  set (seg := take (Z.to_nat n) content) in *.
  assert (Hsplit : content = seg ++ drop (Z.to_nat n) content)
    by (symmetry; apply take_drop).
  destruct (last seg) as [c|] eqn:E.
  - destruct (N.eqb_spec c SPACE) as [->|Hne]; simpl.
    + exists seg, (drop (Z.to_nat n) content). auto.
    + unfold rsplit1_head. destruct (before_last SPACE seg) as [p|] eqn:B.
      * simpl. apply before_last_Some in B as (q & Hseg & _).
        exists p, (SPACE :: q ++ drop (Z.to_nat n) content).
        split; [reflexivity|]. split; [|right; reflexivity].
        rewrite Hsplit at 1. rewrite Hseg, <- app_assoc. reflexivity.
      * apply before_last_None in B. contradiction.
  - apply last_None in E. rewrite E in Hin. inversion Hin.
Qed.

(** C5 (amended): with the default limit of 160 and the default suffix, a
    text longer than the limit whose first 160 characters contain no space
    and are followed by a space keeps those 160 characters whole in front of
    the suffix; the part before the suffix is not empty, and it ends where
    a word of the text ends. *)
Theorem smart_truncate_keeps_whole_word text :
  default_length < len text ->
  SPACE ∉ take 160 text ->
  text !! 160%nat = Some SPACE ->
  smart_truncate_default text = Some (take 160 text ++ default_suffix) /\
  text = take 160 text ++ SPACE :: drop 161 text.
Proof.
  intros Hlen Hns Hsp. split.
  - unfold smart_truncate_default.
    rewrite smart_truncate_no_space; [reflexivity| |assumption].
    unfold default_length in *. lia.
  - symmetry. apply take_drop_middle. assumption.
Qed.

Lemma smart_truncate_keeps_whole_word_witness :
  smart_truncate_default long_word_then_space
  = Some (take 160 long_word_then_space ++ default_suffix) /\
  long_word_then_space
  = take 160 long_word_then_space ++ SPACE :: drop 161 long_word_then_space.
Proof.
  apply (smart_truncate_keeps_whole_word long_word_then_space).
  - vm_compute. reflexivity.
  - apply has_char_false. vm_compute. reflexivity.
  - vm_compute. reflexivity.
Defined.

(** C5 (as stated) fails: 160 letters followed by a space and a word are
    longer than the limit and have no space among the first 160
    characters, yet the result is not the bare suffix. *)
Lemma smart_truncate_no_space_not_empty :
  default_length < len long_word_then_space /\
  (SPACE ∉ take 160 long_word_then_space) /\
  smart_truncate_default long_word_then_space
  = Some (repeat LETTER_A 160 ++ default_suffix) /\
  (smart_truncate_default long_word_then_space
   <> Some ([] ++ default_suffix)).
Proof.
  split; [vm_compute; reflexivity|].
  split; [apply has_char_false; vm_compute; reflexivity|].
  split; [vm_compute; reflexivity|].
  vm_compute. discriminate.
Qed.

(** C6 (the code at the failing input): a word of 161 letters is cut after
    its 160th letter; the letter at index 159 stands immediately before the
    suffix although the text has another letter at index 160. *)
Theorem smart_truncate_cuts_word :
  smart_truncate_default one_long_word
  = Some (repeat LETTER_A 160 ++ default_suffix) /\
  one_long_word !! 159%nat = Some LETTER_A /\
  one_long_word !! 160%nat = Some LETTER_A.
Proof.
  repeat split; vm_compute; reflexivity.
Qed.

(** ** Text Normalizer *)

Lemma tag_match_head s k : tag_match s = Some k -> head s = Some LT.
Proof.
  destruct s as [|a [|b r]]; simpl; try discriminate.
  destruct (N.eqb_spec a LT) as [->|]; [reflexivity|discriminate].
Qed.

Lemma tag_match_pos s k : tag_match s = Some k -> (2 <= k)%nat.
Proof.
  destruct s as [|a [|b r]]; simpl; try discriminate.
  destruct (_ && _); [|discriminate].
  destruct (tag_close r); simpl; [|discriminate]. intros [= <-]. lia.
Qed.

(** Dropping the rest of a match is skipping that many characters. *)
Lemma sub_tags_from_skip k s : sub_tags_from k s = sub_tags (drop k s).
Proof.
  revert k. induction s as [|c r IH]; intros [|k]; try reflexivity.
  simpl. apply IH.
Qed.

(** The two equations of the scan of [re.sub]: a match at the head is
    removed and the scan goes on after it; otherwise the head is kept. *)
Lemma sub_tags_match s k :
  tag_match s = Some k -> sub_tags s = sub_tags (drop k s).
Proof.
  intros H. pose proof (tag_match_pos _ _ H) as Hk.
  destruct s as [|c r]; [discriminate|].
  destruct k as [|k]; [lia|].
  unfold sub_tags at 1. cbn [sub_tags_from]. rewrite H.
  exact (sub_tags_from_skip k r).
Qed.

Lemma sub_tags_no_match c r :
  tag_match (c :: r) = None -> sub_tags (c :: r) = c :: sub_tags r.
Proof.
  intros H. unfold sub_tags at 1. cbn [sub_tags_from]. rewrite H. reflexivity.
Qed.

Lemma sub_tags_no_lt s : LT ∉ s -> sub_tags s = s.
Proof.
  induction s as [|c r IH]; [reflexivity|].
  rewrite not_elem_of_cons. intros [Hc Hr].
  rewrite sub_tags_no_match, IH; [reflexivity|assumption|].
  destruct (tag_match (c :: r)) as [k|] eqn:E; [|reflexivity].
  apply tag_match_head in E. simpl in E. congruence.
Qed.

Lemma unescape_no_amp html5 s : AMP ∉ s -> unescape html5 s = Some s.
Proof.
  intros H. unfold unescape. apply has_char_false in H. rewrite H.
  reflexivity.
Qed.

Lemma split_from_app w u s :
  Forall (fun c => is_space c = false) u ->
  split_from w (u ++ s) = split_from (w ++ u) s.
Proof.
  intros H. revert w. induction H as [|c u Hc _ IH]; intros w; simpl.
  - rewrite app_nil_r. reflexivity.
  - rewrite Hc, IH, <- app_assoc. reflexivity.
Qed.

Lemma split_from_words w s :
  Forall (fun c => is_space c = false) w ->
  Forall word (split_from w s).
Proof.
  revert w. induction s as [|c r IH]; intros w Hw; simpl.
  - destruct w; constructor; [|constructor]. split; [discriminate|assumption].
  - destruct (is_space c) eqn:Hc.
    + destruct w.
      * apply IH. constructor.
      * constructor; [split; [discriminate|assumption]|].
        apply IH. constructor.
    + apply IH. apply Forall_app. split; [assumption|].
      constructor; [assumption|constructor].
Qed.

Lemma split_words s : Forall word (split s).
Proof. apply split_from_words. constructor. Qed.

Lemma is_space_SPACE : is_space SPACE = true.
Proof. reflexivity. Qed.

(** Splitting the words joined by single spaces gives the words back. *)
Lemma split_join ws : Forall word ws -> split (join [SPACE] ws) = ws.
Proof.
  unfold split. induction 1 as [|w ws [Hne Hw] Hws IH]; [reflexivity|].
  destruct ws as [|w' ws'].
  - simpl. rewrite <- (app_nil_r w) at 1. rewrite split_from_app by assumption.
    simpl. destruct w; [contradiction|reflexivity].
  - change (join [SPACE] (w :: w' :: ws'))
      with (w ++ [SPACE] ++ join [SPACE] (w' :: ws')).
    rewrite split_from_app by assumption.
    cbn [app split_from]. rewrite is_space_SPACE, IH.
    destruct w; [contradiction|reflexivity].
Qed.

(** White space is normalised once and for all. *)
Lemma join_split_idempotent s :
  join [SPACE] (split (join [SPACE] (split s))) = join [SPACE] (split s).
Proof. rewrite split_join by apply split_words. reflexivity. Qed.

(** The output has no white space other than single spaces between words:
    splitting it at single spaces loses nothing. *)
Lemma clean_text_eq html5 text o :
  clean_text html5 text = Some o ->
  exists ws, Forall word ws /\ o = join [SPACE] ws.
Proof.
  unfold clean_text. destruct text as [[|c t]|].
  - intros [= <-]. exists []. split; [constructor|reflexivity].
  - destruct (unescape html5 (sub_tags (c :: t))) as [u|]; [|discriminate].
    intros [= <-]. eexists. split; [|reflexivity]. apply split_words.
  - intros [= <-]. exists []. split; [constructor|reflexivity].
Qed.

(** C7 (amended): normalising a normalised text again returns it unchanged
    whenever that text contains neither [<] nor [&]. *)
Theorem clean_text_idempotent_plain html5 text o :
  clean_text html5 text = Some o ->
  LT ∉ o ->
  AMP ∉ o ->
  clean_text html5 (Some o) = Some o.
Proof.
  intros Ho Hlt Hamp.
  destruct (clean_text_eq html5 text o Ho) as (ws & Hws & E).
  destruct o as [|c o]; [reflexivity|].
  unfold clean_text.
  rewrite sub_tags_no_lt, unescape_no_amp by assumption. simpl.
  rewrite E, split_join by assumption. reflexivity.
Qed.

Lemma clean_text_idempotent_plain_witness :
  clean_text html5_basic (Some sample_markup)
  = Some (py "Hello big " ++ [34%N] ++ py "world" ++ [34%N]) /\
  clean_text html5_basic
    (Some (py "Hello big " ++ [34%N] ++ py "world" ++ [34%N]))
  = Some (py "Hello big " ++ [34%N] ++ py "world" ++ [34%N]).
Proof.
  split; [vm_compute; reflexivity|].
  apply (clean_text_idempotent_plain html5_basic (Some sample_markup)).
  - vm_compute. reflexivity.
  - apply has_char_false. vm_compute. reflexivity.
  - apply has_char_false. vm_compute. reflexivity.
Defined.

(** The sample with a tag nested in a tag holds no reference, so whatever
    the table of names, one pass leaves the tag [<b>] and a second pass
    removes it. *)
Lemma clean_text_nested_tag html5 :
  clean_text html5 (Some nested_tag) = Some (py "<b>") /\
  clean_text html5 (Some (py "<b>")) = Some [].
Proof. split; vm_compute; reflexivity. Qed.

(** C7 (as stated) fails: normalising ["<<b>b>"] gives ["<b>"], a text the
    tag pattern still matches, and normalising that gives the empty text;
    normalising ["&amp;lt;"] gives ["&lt;"], a named reference of the
    table, which a second pass turns into ["<"]. *)
Lemma clean_text_not_idempotent :
  clean_text html5_basic (Some nested_tag) = Some (py "<b>") /\
  tag_match (py "<b>") = Some 3%nat /\
  clean_text html5_basic (Some (py "<b>")) = Some [] /\
  (clean_text html5_basic (Some nested_tag)
     ≫= (fun o => clean_text html5_basic (Some o))
   <> clean_text html5_basic (Some nested_tag)) /\
  clean_text html5_basic (Some escaped_entity) = Some (py "&lt;") /\
  html5_basic (py "lt;") = Some [LT] /\
  clean_text html5_basic (Some (py "&lt;")) = Some [LT].
Proof.
  repeat split; try (vm_compute; reflexivity).
  vm_compute. discriminate.
Qed.

(** ** Date reformatting *)

Lemma decimal_value_ascii c :
  (48 <= c <= 57)%N -> decimal_value c = Some (c - 48)%N.
Proof.
  intros H. unfold decimal_value, decimal_blocks. cbn [find].
  destruct (N.leb_spec 48 c); [|lia].
  destruct (N.ltb_spec c (48 + 10)); [reflexivity|lia].
Qed.

Lemma digit_ascii c : (48 <= c <= 57)%N -> digit c = true.
Proof.
  intros H. unfold digit. rewrite decimal_value_ascii by assumption.
  apply bool_decide_eq_true. eauto.
Qed.

Lemma N_below_ind (P : N -> Prop) (n : nat) :
  (forall k, (k < n)%nat -> P (N.of_nat k)) ->
  forall v, (v < N.of_nat n)%N -> P v.
Proof.
  intros H v Hv. rewrite <- (N2Nat.id v). apply H. lia.
Qed.

(** The case analysis on a field whose value is below a small bound. *)
Ltac enum_cases k :=
  first
    [ exfalso; lia
    | destruct k as [|k];
      [ first [ intros; vm_compute; reflexivity | intros; exfalso; lia ]
      | enum_cases k ] ].

Ltac enum_below bound :=
  let k := fresh "k" in
  let Hk := fresh "Hk" in
  refine (N_below_ind _ bound _); intros k Hk; enum_cases k.

Lemma first_alt_group_m rest v :
  (1 <= v <= 12)%N ->
  first_alt group_m (two_digits v ++ rest) = Some (two_digits v, rest).
Proof.
  intros [H1 H2]. revert H1. assert (Hv : (v < N.of_nat 13)%N) by lia.
  clear H2. revert v Hv. enum_below 13%nat.
Qed.

Lemma first_alt_group_d rest v :
  (1 <= v <= 31)%N ->
  first_alt group_d (two_digits v ++ rest) = Some (two_digits v, rest).
Proof.
  intros [H1 H2]. revert H1. assert (Hv : (v < N.of_nat 32)%N) by lia.
  clear H2. revert v Hv. enum_below 32%nat.
Qed.

Lemma first_alt_group_H rest v :
  (v <= 23)%N ->
  first_alt group_H (two_digits v ++ rest) = Some (two_digits v, rest).
Proof.
  intros H2. assert (Hv : (v < N.of_nat 24)%N) by lia.
  clear H2. revert v Hv. enum_below 24%nat.
Qed.

Lemma first_alt_group_M rest v :
  (v <= 59)%N ->
  first_alt group_M (two_digits v ++ rest) = Some (two_digits v, rest).
Proof.
  intros H2. assert (Hv : (v < N.of_nat 60)%N) by lia.
  clear H2. revert v Hv. enum_below 60%nat.
Qed.

Lemma first_alt_group_S rest v :
  (v <= 59)%N ->
  first_alt group_S (two_digits v ++ rest) = Some (two_digits v, rest).
Proof.
  intros H2. assert (Hv : (v < N.of_nat 60)%N) by lia.
  clear H2. revert v Hv. enum_below 60%nat.
Qed.

Lemma match_items_group alts items s g rest gs e :
  first_alt alts s = Some (g, rest) ->
  match_items items rest = Some (gs, e) ->
  match_items (Group alts :: items) s = Some (g :: gs, e).
Proof.
  intros Ha Hi. cbn [match_items].
  induction alts as [|a alts IH]; [discriminate|].
  cbn [first_alt] in Ha.
  destruct (match_classes a s) as [[g' rest']|].
  - injection Ha as -> ->. rewrite Hi. reflexivity.
  - apply IH. assumption.
Qed.

Lemma match_items_lit l items r :
  match_items (Lit l :: items) (l :: r) = match_items items r.
Proof. cbn [match_items]. rewrite N.eqb_refl. reflexivity. Qed.

(** Linear arithmetic with quotients and remainders by constants. *)
Ltac lia_div := Zify.zify; Z.to_euclidean_division_equations; lia.

Lemma first_alt_group_Y rest v :
  (v <= 9999)%N ->
  first_alt group_Y (four_digits v ++ rest) = Some (four_digits v, rest).
Proof.
  intros Hv. unfold group_Y, four_digits. cbn [first_alt match_classes app].
  rewrite !digit_ascii by lia_div. reflexivity.
Qed.

Lemma int_of_group_two_digits v :
  (v < 100)%N -> int_of_group (two_digits v) = v.
Proof.
  intros Hv. unfold int_of_group, two_digits. cbn [fold_left].
  rewrite !decimal_value_ascii by lia_div. lia_div.
Qed.

Lemma int_of_group_four_digits v :
  (v <= 9999)%N -> int_of_group (four_digits v) = v.
Proof.
  intros Hv. unfold int_of_group, four_digits. cbn [fold_left].
  rewrite !decimal_value_ascii by lia_div. lia_div.
Qed.

Lemma days_in_month_le y m : (days_in_month y m <= 31)%N.
Proof.
  unfold days_in_month.
  destruct (m =? 2)%N; [destruct (is_leap y); lia|].
  destruct (existsb _ _); lia.
Qed.

Lemma valid_datetime_bounds dt :
  valid_datetime dt = true ->
  (1 <= year dt <= 9999 /\ 1 <= month dt <= 12 /\
   1 <= day dt <= days_in_month (year dt) (month dt) /\
   hour dt <= 23 /\ minute dt <= 59 /\ second dt <= 59)%N.
Proof.
  unfold valid_datetime. rewrite !andb_true_iff, !N.leb_le. tauto.
Qed.

(** The expression matches the padded text of a valid date and time, one
    field to a group, and leaves nothing unmatched. *)
Lemma match_items_isoformat dt :
  valid_datetime dt = true ->
  match_items format_regex (isoformat dt)
  = Some ([four_digits (year dt); two_digits (month dt);
           two_digits (day dt); two_digits (hour dt);
           two_digits (minute dt); two_digits (second dt)], []).
Proof.
  intros H. apply valid_datetime_bounds in H as (Hy & Hm & Hd & HH & HM & HS).
  pose proof (days_in_month_le (year dt) (month dt)).
  unfold format_regex, isoformat.
  eapply match_items_group; [apply first_alt_group_Y; lia|].
  rewrite match_items_lit.
  eapply match_items_group; [apply first_alt_group_m; lia|].
  rewrite match_items_lit.
  eapply match_items_group; [apply first_alt_group_d; lia|].
  rewrite match_items_lit.
  eapply match_items_group; [apply first_alt_group_H; lia|].
  rewrite match_items_lit.
  eapply match_items_group; [apply first_alt_group_M; lia|].
  rewrite match_items_lit.
  eapply match_items_group; [apply first_alt_group_S; lia|].
  rewrite match_items_lit. reflexivity.
Qed.

(** Reading the padded text of a valid date and time gives it back. *)
Lemma strptime_isoformat dt :
  valid_datetime dt = true -> strptime (isoformat dt) = Some dt.
Proof.
  intros H. unfold strptime. rewrite match_items_isoformat by assumption.
  pose proof (valid_datetime_bounds dt H) as (Hy & Hm & Hd & HH & HM & HS).
  pose proof (days_in_month_le (year dt) (month dt)).
  rewrite int_of_group_four_digits, !int_of_group_two_digits by lia.
  destruct dt; cbn [year month day hour minute second] in *.
  rewrite H. reflexivity.
Qed.

(** What [strptime] accepts satisfies the checks of the constructors. *)
Lemma strptime_valid s dt : strptime s = Some dt -> valid_datetime dt = true.
Proof.
  unfold strptime. destruct (match_items format_regex s) as [[gs e]|];
    [|discriminate].
  destruct gs as [|gY [|gm [|gd [|gH [|gM [|gS [|? ?]]]]]]]; try discriminate.
  destruct e; [|discriminate].
  destruct (valid_datetime _) eqn:E; [|discriminate].
  intros [= <-]. assumption.
Qed.

(** C9: the padded text of every valid date and time in the source format
    is turned into the day on two digits, the abbreviated month and the
    year; so is every other text [strptime] accepts; a text it rejects is
    returned unchanged; [parse_date] is a total function, no error leaves
    it. *)
Theorem parse_date_reformats :
  (forall dt, valid_datetime dt = true ->
     parse_date (isoformat dt)
     = two_digits (day dt) ++ [SPACE] ++ month_abbr (month dt) ++ [SPACE]
       ++ decimal (year dt)) /\
  (forall s dt, strptime s = Some dt ->
     parse_date s
     = two_digits (day dt) ++ [SPACE] ++ month_abbr (month dt) ++ [SPACE]
       ++ decimal (year dt)) /\
  (forall s, strptime s = None -> parse_date s = s).
Proof.
  split; [|split].
  - intros dt H. unfold parse_date. rewrite strptime_isoformat by assumption.
    reflexivity.
  - intros s dt H. unfold parse_date. rewrite H. reflexivity.
  - intros s H. unfold parse_date. rewrite H. reflexivity.
Qed.

Lemma parse_date_reformats_witness :
  parse_date (py "2024-01-07T10:00:00Z") = py "07 Jan 2024" /\
  parse_date (py "7 January 2024") = py "7 January 2024".
Proof.
  destruct parse_date_reformats as (H1 & _ & H3). split.
  - exact (H1 (mk_datetime 2024 1 7 10 0 0) eq_refl).
  - apply H3. vm_compute. reflexivity.
Defined.

(** ** URL Resolver *)

Section ViewFacts.

Context `{Library}.

(** C8: when the query of the URL has a parameter [url] whose first value
    is not empty, the result is that value, as the library decoded it; in
    every other case (the URL cannot be parsed, the query cannot be
    parsed, there is no parameter [url], or its value is empty) the result
    is the URL given; [get_real_url] is a total function, no error leaves
    it. *)
Theorem get_real_url_unwraps google_url :
  (forall parsed qs v vs,
     urlparse google_url = Some parsed ->
     parse_qs (query parsed) = Some qs ->
     qs !! py "url" = Some (v :: vs) -> v <> [] ->
     get_real_url google_url = v) /\
  (urlparse google_url = None -> get_real_url google_url = google_url) /\
  (forall parsed,
     urlparse google_url = Some parsed ->
     parse_qs (query parsed) = None ->
     get_real_url google_url = google_url) /\
  (forall parsed qs,
     urlparse google_url = Some parsed ->
     parse_qs (query parsed) = Some qs ->
     qs !! py "url" = None \/ qs !! py "url" = Some [] \/
     (exists vs, qs !! py "url" = Some ([] :: vs)) ->
     get_real_url google_url = google_url).
Proof.
  unfold get_real_url, get_real_url_try. repeat split.
  - intros parsed qs v vs H1 H2 H3 Hv.
    rewrite H1; simpl. rewrite H2; simpl. rewrite H3; simpl.
    destruct v; [contradiction|reflexivity].
  - intros ->. reflexivity.
  - intros parsed H1 H2. rewrite H1; simpl. rewrite H2. reflexivity.
  - intros parsed qs H1 H2 H3. rewrite H1; simpl. rewrite H2; simpl.
    destruct H3 as [->|[->|[vs ->]]]; reflexivity.
Qed.

(** ** Page Enricher *)

(** C4 (amended): without a URL, when the request raises (it fails or
    times out) or when the status is not 200, both fields are absent; so
    they are when the document cannot be parsed.  On a response with
    status 200 the image is the content of the [og:image] meta tag if
    there is one; the description is the normalised content of the
    [og:description] meta tag if there is one, else that of the
    [description] meta tag if there is one, else absent, and it is absent
    too when the normaliser raises on the content of the tag that is read:
    the error is swallowed, the image is kept and the other tag is not
    tried.  [scrape_article_data] is a total function, no error leaves
    it. *)
Theorem scrape_article_data_degrades url :
  (truthy url = false -> scrape_article_data url = no_data) /\
  (requests_get (default [] url) = None ->
   scrape_article_data url = no_data) /\
  (forall response,
     requests_get (default [] url) = Some response ->
     status_code response <> 200 ->
     scrape_article_data url = no_data) /\
  (forall response,
     requests_get (default [] url) = Some response ->
     BeautifulSoup (response_content response) = None ->
     scrape_article_data url = no_data) /\
  (forall response soup,
     truthy url = true ->
     requests_get (default [] url) = Some response ->
     status_code response = 200 ->
     BeautifulSoup (response_content response) = Some soup ->
     image (scrape_article_data url)
     = (og_image ← find_meta_property soup (py "og:image");
        tag_get og_image (py "content")) /\
     description (scrape_article_data url)
     = match find_meta_property soup (py "og:description") with
       | Some og_desc =>
           clean_text html5_names (tag_get og_desc (py "content"))
       | None =>
           match find_meta_name soup (py "description") with
           | Some meta_desc =>
               clean_text html5_names (tag_get meta_desc (py "content"))
           | None => None
           end
       end).
Proof.
  unfold scrape_article_data, no_data. split; [|split; [|split; [|split]]].
  - intros ->. reflexivity.
  - intros ->. destruct (negb _); reflexivity.
  - intros response -> Hs. destruct (negb _); [reflexivity|].
    destruct (Z.eqb_spec (status_code response) 200); [contradiction|].
    reflexivity.
  - intros response -> ->. destruct (negb _); [reflexivity|].
    destruct (_ =? _); reflexivity.
  - intros response soup -> -> -> ->. cbn [negb].
    destruct (find_meta_property soup (py "og:image"));
      destruct (find_meta_property soup (py "og:description")) as [og_desc|];
      try destruct (clean_text html5_names (tag_get og_desc (py "content")));
      try destruct (find_meta_name soup (py "description")) as [meta_desc|];
      try destruct (clean_text html5_names
                      (tag_get meta_desc (py "content")));
      split; reflexivity.
Qed.

(** ** Entry Processor *)

Lemma smart_truncate_default_total content :
  is_Some (smart_truncate_default content).
Proof. apply smart_truncate_total. reflexivity. Qed.

(** An entry is processed when its title can be normalised and either
    its page gave a description that is not empty or it has a content
    item that can be normalised. *)
Lemma process_single_post_returns entry clean_title :
  clean_text html5_names (Some (title entry)) = Some clean_title ->
  truthy (description
            (scrape_article_data (Some (get_real_url (link entry))))) = true
  \/ (exists item rest snippet,
        content entry = item :: rest /\
        clean_text html5_names (Some (value item)) = Some snippet) ->
  is_Some (process_single_post entry).
Proof.
  intros Ht Hx. unfold process_single_post. rewrite Ht. simpl.
  destruct (truthy (description _)).
  - destruct (smart_truncate_default_total
                (default [] (description
                   (scrape_article_data (Some (get_real_url (link entry)))))))
      as [ex ->]. simpl. eauto.
  - destruct Hx as [|(item & rest & snippet & Hc & Hs)]; [discriminate|].
    rewrite Hc. simpl. rewrite Hs. simpl.
    destruct (smart_truncate_default_total snippet) as [ex ->].
    simpl. eauto.
Qed.

(** C3 (amended): when the page of an entry gives no image and no
    description, every record made of the entry has the placeholder as
    its image and, as its excerpt, the truncation of the normalised
    content of the feed entry; a record is made whenever the entry has a
    content item and the normaliser returns on its title and on that
    content; and no record is made, [process_single_post] raises, when
    the normaliser raises on the title, when the entry has no content
    item, or when the normaliser raises on the first content item. *)
Theorem process_single_post_fallback entry :
  scrape_article_data (Some (get_real_url (link entry))) = no_data ->
  (forall record,
     process_single_post entry = Some record ->
     post_image record = PLACEHOLDER /\
     exists item rest snippet,
       content entry = item :: rest /\
       clean_text html5_names (Some (value item)) = Some snippet /\
       smart_truncate_default snippet = Some (post_excerpt record)) /\
  (forall item rest clean_title snippet,
     content entry = item :: rest ->
     clean_text html5_names (Some (title entry)) = Some clean_title ->
     clean_text html5_names (Some (value item)) = Some snippet ->
     exists record, process_single_post entry = Some record) /\
  (clean_text html5_names (Some (title entry)) = None \/
   content entry = [] \/
   (exists item rest,
      content entry = item :: rest /\
      clean_text html5_names (Some (value item)) = None) ->
   process_single_post entry = None).
Proof.
  intros Hs. split; [|split].
  - intros record. unfold process_single_post. rewrite Hs.
    destruct (clean_text html5_names (Some (title entry))) as [t|];
      [|discriminate].
    cbn [mbind option_bind description no_data truthy image].
    destruct (content entry) as [|item rest]; [discriminate|].
    cbn [head mbind option_bind].
    destruct (clean_text html5_names (Some (value item))) as [snippet|]
      eqn:Hsn; [|discriminate].
    cbn [mbind option_bind].
    destruct (smart_truncate_default snippet) as [ex|] eqn:Hex;
      [|discriminate].
    cbn [mbind option_bind negb default]. intros [= <-].
    split; [reflexivity|]. exists item, rest, snippet.
    split; [reflexivity|]. split; [exact Hsn|exact Hex].
  - intros item rest clean_title snippet Hc Ht Hsn.
    apply (process_single_post_returns entry clean_title Ht).
    right. eauto.
  - unfold process_single_post. rewrite Hs.
    intros [Ht|Hx]; [rewrite Ht; reflexivity|].
    destruct (clean_text html5_names (Some (title entry))) as [t|];
      [|reflexivity].
    cbn [mbind option_bind description no_data truthy].
    destruct Hx as [Hc|(item & rest & Hc & Hn)]; rewrite Hc;
      [reflexivity|].
    cbn [head mbind option_bind]. rewrite Hn. reflexivity.
Qed.

(** ** Cache Layer and Pipeline Orchestrator *)

Lemma cache_get_None key w :
  cache_get key w = None <->
  cache w !! key = None \/
  exists e, cache w !! key = Some e /\ expires_at e <= now w.
Proof.
  unfold cache_get. destruct (cache w !! key) as [e|].
  - destruct (Z.ltb_spec (now w) (expires_at e)).
    + split; [discriminate|]. intros [|(e' & [= <-] & ?)]; [discriminate|lia].
    + split; [eauto|reflexivity].
  - split; [auto|reflexivity].
Qed.

(** Within the time to live a stored value is read back; from then on it
    is gone. *)
Lemma cache_get_set key v timeout d w :
  cache_get key (tick d (cache_set key v timeout w))
  = if d <? timeout then Some v else None.
Proof.
  unfold cache_get, tick, cache_set. cbn [cache now].
  rewrite lookup_insert_eq. cbn [expires_at cached_value].
  destruct (Z.ltb_spec (now w + d) (now w + timeout));
    destruct (Z.ltb_spec d timeout); (reflexivity || lia).
Qed.

(** A hit: the cache holds a list that is not empty. *)
Lemma get_cached_news_hit w stored :
  cache_get CACHE_KEY w = Some stored -> stored <> [] ->
  get_cached_news w = (Some stored, w).
Proof.
  intros Hg Hne. unfold get_cached_news. rewrite Hg.
  destruct stored; [contradiction|reflexivity].
Qed.

(** A miss: the cache holds nothing, or the empty list. *)
Lemma get_cached_news_miss w :
  cache_get CACHE_KEY w = None \/ cache_get CACHE_KEY w = Some [] ->
  get_cached_news w
  = match status (feedparser_parse RSS_URL) with
    | None => (None, count_fetch w)
    | Some st =>
        if negb (st =? 200) then (Some [], count_fetch w)
        else
          match mapM process_single_post
                  (entries (feedparser_parse RSS_URL)) with
          | None => (None, count_fetch w)
          | Some posts =>
              (Some posts, cache_set CACHE_KEY posts 900 (count_fetch w))
          end
    end.
Proof.
  intros Hm. unfold get_cached_news. destruct Hm as [-> | ->]; reflexivity.
Qed.

(** On a miss the feed is fetched exactly once, whatever comes of it. *)
Lemma get_cached_news_miss_fetches w :
  cache_get CACHE_KEY w = None \/ cache_get CACHE_KEY w = Some [] ->
  feed_fetches (snd (get_cached_news w)) = S (feed_fetches w).
Proof.
  intros Hm. rewrite get_cached_news_miss by assumption.
  destruct (status _) as [st|]; [|reflexivity].
  destruct (negb _); [reflexivity|].
  destruct (mapM _ _); reflexivity.
Qed.

(** Entries on which [process_single_post] returns are all processed, in
    their order. *)
Lemma mapM_process_single_post es :
  Forall (fun e => is_Some (process_single_post e)) es ->
  exists records,
    mapM process_single_post es = Some records /\
    Forall2 (fun e r => process_single_post e = Some r) es records.
Proof.
  intros Hc.
  destruct (mapM_is_Some_2 process_single_post es) as [records Hr].
  - eapply Forall_impl; [exact Hc|]. intros e He. exact He.
  - exists records. split; [assumption|]. apply mapM_Some_1. assumption.
Qed.

(** C2 (amended): on a miss of the cache, when the feed reports a status
    other than 200 the result is the empty list; when it reports 200 and
    [process_single_post] returns a record for every entry, the result
    has exactly one record per entry and the record at each position is
    the one [process_single_post] makes of the entry at that position;
    when it reports 200 and [process_single_post] raises on an entry, or
    when the feed has no status at all, the call raises and there is no
    list. *)
Theorem get_cached_news_pipeline w :
  cache_get CACHE_KEY w = None \/ cache_get CACHE_KEY w = Some [] ->
  (forall st,
     status (feedparser_parse RSS_URL) = Some st -> st <> 200 ->
     fst (get_cached_news w) = Some []) /\
  (status (feedparser_parse RSS_URL) = Some 200 ->
   Forall (fun e => is_Some (process_single_post e))
     (entries (feedparser_parse RSS_URL)) ->
   exists records,
     fst (get_cached_news w) = Some records /\
     length records = length (entries (feedparser_parse RSS_URL)) /\
     forall i e,
       entries (feedparser_parse RSS_URL) !! i = Some e ->
       exists r, records !! i = Some r /\ process_single_post e = Some r) /\
  (status (feedparser_parse RSS_URL) = Some 200 ->
   Exists (fun e => process_single_post e = None)
     (entries (feedparser_parse RSS_URL)) ->
   fst (get_cached_news w) = None) /\
  (status (feedparser_parse RSS_URL) = None ->
   fst (get_cached_news w) = None).
Proof.
  intros Hm. rewrite get_cached_news_miss by assumption.
  split; [|split; [|split]].
  - intros st -> Hst. destruct (Z.eqb_spec st 200); [contradiction|].
    reflexivity.
  - intros -> Hc. simpl.
    destruct (mapM_process_single_post _ Hc) as (records & -> & HF).
    exists records. split; [reflexivity|]. split.
    + symmetry. eapply Forall2_length. exact HF.
    + intros i e He.
      destruct (Forall2_lookup_l _ _ _ _ _ HF He) as (r & Hr & Hp). eauto.
  - intros -> Hex. simpl. apply mapM_None_2 in Hex. rewrite Hex.
    reflexivity.
  - intros ->. reflexivity.
Qed.

(** C1 (amended): within the 900 time units after a list that is not empty
    was stored, the call returns that list and leaves the world as it is,
    the feed is not fetched; when the key is absent or expired the feed is
    fetched exactly once, and then: when the feed reports a status other
    than 200 the empty list is returned and not stored; when it reports
    200 and [process_single_post] returns a record for every entry, the
    records are returned and stored for 900 time units; when the feed has
    no status, or reports 200 and [process_single_post] raises on an
    entry, the call raises, nothing is returned and nothing is stored. *)
Theorem get_cached_news_cached w :
  (forall stored d,
     stored <> [] -> 0 <= d < 900 ->
     get_cached_news (tick d (cache_set CACHE_KEY stored 900 w))
     = (Some stored, tick d (cache_set CACHE_KEY stored 900 w))) /\
  (cache w !! CACHE_KEY = None \/
   (exists e, cache w !! CACHE_KEY = Some e /\ expires_at e <= now w) ->
   feed_fetches (snd (get_cached_news w)) = S (feed_fetches w) /\
   (forall st,
      status (feedparser_parse RSS_URL) = Some st -> st <> 200 ->
      get_cached_news w = (Some [], count_fetch w)) /\
   (status (feedparser_parse RSS_URL) = Some 200 ->
    Forall (fun e => is_Some (process_single_post e))
      (entries (feedparser_parse RSS_URL)) ->
    exists records,
      mapM process_single_post (entries (feedparser_parse RSS_URL))
      = Some records /\
      get_cached_news w
      = (Some records, cache_set CACHE_KEY records 900 (count_fetch w)) /\
      cache (snd (get_cached_news w)) !! CACHE_KEY
      = Some {| cached_value := records; expires_at := now w + 900 |}) /\
   (status (feedparser_parse RSS_URL) = None \/
    status (feedparser_parse RSS_URL) = Some 200 /\
    Exists (fun e => process_single_post e = None)
      (entries (feedparser_parse RSS_URL)) ->
    get_cached_news w = (None, count_fetch w))).
Proof.
  split.
  - intros stored d Hne Hd. apply get_cached_news_hit; [|assumption].
    rewrite cache_get_set. destruct (Z.ltb_spec d 900); [reflexivity|lia].
  - intros Hm. apply cache_get_None in Hm.
    assert (Hm' : cache_get CACHE_KEY w = None \/
                  cache_get CACHE_KEY w = Some []) by (left; assumption).
    split; [apply get_cached_news_miss_fetches; assumption|].
    rewrite get_cached_news_miss by assumption. split; [|split].
    + intros st -> Hst. destruct (Z.eqb_spec st 200); [contradiction|].
      reflexivity.
    + intros -> Hc. simpl.
      destruct (mapM_process_single_post _ Hc) as (records & -> & _).
      exists records. split; [reflexivity|]. split; [reflexivity|].
      unfold cache_set. cbn [snd cache now count_fetch].
      apply lookup_insert_eq.
    + intros [-> | [-> Hex]]; [reflexivity|]. simpl.
      apply mapM_None_2 in Hex. rewrite Hex. reflexivity.
Qed.

(** C10: the empty list never behaves as a cached value.  On a miss with
    a feed whose status is not 200 the empty list is returned and the
    cache is left as it was; a stored empty list is not served: within its
    time to live the call fetches the feed again; and a list returned
    without fetching the feed is never empty. *)
Theorem get_cached_news_never_caches_empty w :
  (cache_get CACHE_KEY w = None \/ cache_get CACHE_KEY w = Some [] ->
   forall st,
     status (feedparser_parse RSS_URL) = Some st -> st <> 200 ->
     fst (get_cached_news w) = Some [] /\
     cache (snd (get_cached_news w)) = cache w) /\
  (forall d,
     0 <= d < 900 ->
     cache_get CACHE_KEY (tick d (cache_set CACHE_KEY [] 900 w)) = Some [] /\
     feed_fetches
       (snd (get_cached_news (tick d (cache_set CACHE_KEY [] 900 w))))
     = S (feed_fetches w)) /\
  (forall served,
     fst (get_cached_news w) = Some served ->
     feed_fetches (snd (get_cached_news w)) = feed_fetches w ->
     served <> [] /\ cache_get CACHE_KEY w = Some served).
Proof.
  split; [|split].
  - intros Hm st Hst Hne. rewrite get_cached_news_miss by assumption.
    rewrite Hst. destruct (Z.eqb_spec st 200); [contradiction|].
    split; reflexivity.
  - intros d Hd.
    assert (Hg : cache_get CACHE_KEY (tick d (cache_set CACHE_KEY [] 900 w))
                 = Some []).
    { rewrite cache_get_set. destruct (Z.ltb_spec d 900); [reflexivity|lia]. }
    split; [exact Hg|].
    rewrite get_cached_news_miss_fetches by (right; exact Hg). reflexivity.
  - intros served Hs Hf.
    destruct (cache_get CACHE_KEY w) as [[|p ps]|] eqn:Hg.
    + rewrite get_cached_news_miss_fetches in Hf by auto. lia.
    + rewrite (get_cached_news_hit w (p :: ps)) in Hs
        by (assumption || discriminate).
      injection Hs as <-. split; [discriminate|reflexivity].
    + rewrite get_cached_news_miss_fetches in Hf by auto. lia.
Qed.

End ViewFacts.

(** ** The sample web *)

(** The pipeline on the sample web with a healthy feed: two records in the
    order of the feed, the first with the description and the image of
    its page, the second, whose page timed out, with the placeholder and
    an excerpt made of the feed's content; the list is stored. *)
Lemma get_cached_news_sample :
  @get_cached_news (sample_library 200) empty_world
  = (Some sample_posts,
     cache_set CACHE_KEY sample_posts 900 (count_fetch empty_world)).
Proof. vm_compute. reflexivity. Qed.

Lemma get_real_url_unwraps_witness :
  @get_real_url (sample_library 200) sample_wrapped = sample_page_a /\
  @get_real_url (sample_library 200) (py "no url at all") = py "no url at all".
Proof.
  split.
  - apply (proj1 (@get_real_url_unwraps (sample_library 200) sample_wrapped)
             {| query := sample_query |} {[ py "url" := [sample_page_a] ]}
             sample_page_a []).
    + vm_compute. reflexivity.
    + vm_compute. reflexivity.
    + vm_compute. reflexivity.
    + discriminate.
  - apply (proj1 (proj2 (@get_real_url_unwraps (sample_library 200)
                           (py "no url at all")))).
    vm_compute. reflexivity.
Defined.

Lemma scrape_article_data_degrades_witness :
  @scrape_article_data (sample_library 200) (Some sample_page_b) = no_data /\
  image (@scrape_article_data (sample_library 200) (Some sample_page_a))
  = Some (py "https://news.example/a.png") /\
  description (@scrape_article_data (sample_library 200) (Some sample_page_a))
  = Some (py "Full summary.").
Proof.
  pose proof (@scrape_article_data_degrades (sample_library 200)
                (Some sample_page_b)) as (_ & Hb & _).
  pose proof (@scrape_article_data_degrades (sample_library 200)
                (Some sample_page_a)) as (_ & _ & _ & _ & Ha).
  split; [apply Hb; vm_compute; reflexivity|].
  destruct (Ha {| status_code := 200; response_content := sample_markup_a |}
              [ [ (py "property", py "og:image");
                  (py "content", py "https://news.example/a.png") ];
                [ (py "property", py "og:description");
                  (py "content", py "Full summary.") ] ])
    as [Hi Hd]; try (vm_compute; reflexivity).
  split; [rewrite Hi|rewrite Hd]; vm_compute; reflexivity.
Defined.

(** C4 (as stated) fails: on a page answered with status 200 whose
    [og:description] tag has a content on which the normaliser raises,
    the tag is present and yet the description is absent; the image that
    was found is kept and the standard description is not read. *)
Lemma scrape_article_data_overlong_description :
  find (fun t => bool_decide
                   (attribute (py "property") t = Some (py "og:description")))
    overlong_og_tags
  = Some [ (py "property", py "og:description");
           (py "content", overlong_reference) ] /\
  clean_text html5_basic (Some overlong_reference) = None /\
  description
    (@scrape_article_data (page_library overlong_og_tags) (Some sample_page_a))
  = None /\
  image
    (@scrape_article_data (page_library overlong_og_tags) (Some sample_page_a))
  = Some (py "https://news.example/a.png").
Proof. repeat split; vm_compute; reflexivity. Qed.

Lemma process_single_post_fallback_witness :
  (forall record,
     @process_single_post (sample_library 200) sample_second_entry
     = Some record ->
     post_image record = PLACEHOLDER /\
     exists item rest snippet,
       content sample_second_entry = item :: rest /\
       clean_text html5_basic (Some (value item)) = Some snippet /\
       smart_truncate_default snippet = Some (post_excerpt record)) /\
  (exists record,
     @process_single_post (sample_library 200) sample_second_entry
     = Some record) /\
  @process_single_post (sample_library 200) bare_entry = None.
Proof.
  destruct (@process_single_post_fallback (sample_library 200)
              sample_second_entry) as (Hrec & Hex & _).
  - vm_compute. reflexivity.
  - destruct (@process_single_post_fallback (sample_library 200) bare_entry)
      as (_ & _ & Hraise); [vm_compute; reflexivity|].
    split; [exact Hrec|]. split.
    + apply (Hex {| value := py "A   feed &amp; snippet" |} []
               (py "Second story") (py "A feed & snippet"));
        vm_compute; reflexivity.
    + apply Hraise. right. left. reflexivity.
Defined.

(** C3 (as stated) fails: the page of this entry times out, so it gives
    no image and no description, and the entry has a content item that
    the normaliser accepts; yet no record is made: the normaliser raises
    on the title, which holds a decimal reference of 4301 digits. *)
Lemma process_single_post_overlong_title :
  @scrape_article_data (sample_library 200)
    (Some (@get_real_url (sample_library 200) (link overlong_title_entry)))
  = no_data /\
  content overlong_title_entry = [ {| value := py "A feed snippet" |} ] /\
  clean_text html5_basic (Some (py "A feed snippet"))
  = Some (py "A feed snippet") /\
  clean_text html5_basic (Some (title overlong_title_entry)) = None /\
  @process_single_post (sample_library 200) overlong_title_entry = None.
Proof. repeat split; vm_compute; reflexivity. Qed.

Lemma get_cached_news_pipeline_witness :
  fst (@get_cached_news (sample_library 500) empty_world) = Some [] /\
  (exists records,
     fst (@get_cached_news (sample_library 200) empty_world) = Some records /\
     length records = 2%nat) /\
  fst (@get_cached_news
         (feed_library {| status := Some 200; entries := [bare_entry] |})
         empty_world) = None.
Proof.
  destruct (@get_cached_news_pipeline (sample_library 500) empty_world)
    as (Hdown & _ & _); [left; vm_compute; reflexivity|].
  destruct (@get_cached_news_pipeline (sample_library 200) empty_world)
    as (_ & Hup & _); [left; vm_compute; reflexivity|].
  destruct (@get_cached_news_pipeline
              (feed_library {| status := Some 200; entries := [bare_entry] |})
              empty_world)
    as (_ & _ & Hraise & _); [left; vm_compute; reflexivity|].
  split; [|split].
  - apply (Hdown 500); [reflexivity|discriminate].
  - destruct Hup as (records & Hr & Hlen & _).
    + reflexivity.
    + repeat constructor; vm_compute; eauto.
    + exists records. split; [exact Hr|exact Hlen].
  - apply Hraise; [reflexivity|]. left. vm_compute. reflexivity.
Defined.

(** C2 (as stated) fails: a feed of status 200 with one entry that has
    no content, on a web where every request fails, gives no list at
    all: the call raises. *)
Lemma get_cached_news_entry_without_content :
  status (@feedparser_parse
            (feed_library {| status := Some 200; entries := [bare_entry] |})
            RSS_URL) = Some 200 /\
  length (entries
            (@feedparser_parse
               (feed_library {| status := Some 200;
                                entries := [bare_entry] |}) RSS_URL))
  = 1%nat /\
  @process_single_post
    (feed_library {| status := Some 200; entries := [bare_entry] |})
    bare_entry = None /\
  fst (@get_cached_news
         (feed_library {| status := Some 200; entries := [bare_entry] |})
         empty_world) = None.
Proof. repeat split; vm_compute; reflexivity. Qed.

Lemma get_cached_news_cached_witness :
  @get_cached_news (sample_library 200)
    (tick 899 (cache_set CACHE_KEY sample_posts 900 empty_world))
  = (Some sample_posts,
     tick 899 (cache_set CACHE_KEY sample_posts 900 empty_world)) /\
  feed_fetches (snd (@get_cached_news (sample_library 200) empty_world))
  = 1%nat /\
  @get_cached_news (sample_library 500) empty_world
  = (Some [], count_fetch empty_world) /\
  (exists records,
     @get_cached_news (sample_library 200) empty_world
     = (Some records,
        cache_set CACHE_KEY records 900 (count_fetch empty_world))) /\
  @get_cached_news (feed_library {| status := None; entries := [] |})
    empty_world
  = (None, count_fetch empty_world).
Proof.
  destruct (@get_cached_news_cached (sample_library 200) empty_world)
    as [Hhit Hmiss].
  destruct (@get_cached_news_cached (sample_library 500) empty_world)
    as [_ Hdown].
  destruct (@get_cached_news_cached
              (feed_library {| status := None; entries := [] |}) empty_world)
    as [_ Hnone].
  split; [apply Hhit; [discriminate|lia]|].
  split; [apply Hmiss; left; vm_compute; reflexivity|].
  split; [|split].
  - destruct Hdown as (_ & Hfail & _); [left; vm_compute; reflexivity|].
    apply (Hfail 500); [reflexivity|discriminate].
  - destruct Hmiss as (_ & _ & Hok & _); [left; vm_compute; reflexivity|].
    destruct Hok as (records & _ & Hrun & _).
    + reflexivity.
    + repeat constructor; vm_compute; eauto.
    + exists records. exact Hrun.
  - destruct Hnone as (_ & _ & _ & Hraise); [left; vm_compute; reflexivity|].
    apply Hraise. left. reflexivity.
Defined.

(** C1 (as stated) fails.  A stored empty list is not returned from the
    cache: right after it was set the call fetches the feed and returns
    the records of the feed instead.  And the result of a run is not
    always stored: with a feed of status 500 on an empty cache the call
    returns the empty list and the cache stays empty. *)
Lemma get_cached_news_empty_list_not_served :
  cache_get CACHE_KEY (cache_set CACHE_KEY [] 900 empty_world) = Some [] /\
  fst (@get_cached_news (sample_library 200)
         (cache_set CACHE_KEY [] 900 empty_world)) = Some sample_posts /\
  feed_fetches
    (snd (@get_cached_news (sample_library 200)
            (cache_set CACHE_KEY [] 900 empty_world))) = 1%nat /\
  cache empty_world !! CACHE_KEY = None /\
  fst (@get_cached_news (sample_library 500) empty_world) = Some [] /\
  cache (snd (@get_cached_news (sample_library 500) empty_world))
    !! CACHE_KEY = None.
Proof. repeat split; vm_compute; reflexivity. Qed.

Lemma get_cached_news_never_caches_empty_witness :
  (fst (@get_cached_news (sample_library 500) empty_world) = Some [] /\
   cache (snd (@get_cached_news (sample_library 500) empty_world))
   = cache empty_world) /\
  feed_fetches
    (snd (@get_cached_news (sample_library 200)
            (tick 10 (cache_set CACHE_KEY [] 900 empty_world)))) = 1%nat /\
  sample_posts <> [].
Proof.
  destruct (@get_cached_news_never_caches_empty (sample_library 500)
              empty_world) as (Hdown & _ & _).
  destruct (@get_cached_news_never_caches_empty (sample_library 200)
              empty_world) as (_ & Hempty & _).
  destruct (@get_cached_news_never_caches_empty (sample_library 200)
              (tick 899 (cache_set CACHE_KEY sample_posts 900 empty_world)))
    as (_ & _ & Hserved).
  split; [|split].
  - apply (Hdown ltac:(left; vm_compute; reflexivity) 500);
      [reflexivity|discriminate].
  - apply Hempty. lia.
  - apply (Hserved sample_posts); vm_compute; reflexivity.
Defined.

(* ================================================================== *)
(** * Further properties *)
(* ================================================================== *)

(** ** Truncator: errors, prefixes and the place of the cut *)

Lemma smart_truncate_bounded_witness :
  len (repeat LETTER_A 160 ++ default_suffix)
  <= 160 + len default_suffix.
Proof.
  apply (smart_truncate_bounded long_word_then_space 160 default_suffix).
  - lia.
  - vm_compute. reflexivity.
Defined.

Lemma smart_truncate_word_boundary_witness :
  exists p rest,
    smart_truncate (py "one two three") 6 default_suffix
    = Some (p ++ default_suffix) /\
    py "one two three" = p ++ rest /\
    (last p = Some SPACE \/ head rest = Some SPACE).
Proof.
  apply (smart_truncate_word_boundary (py "one two three") 6 default_suffix).
  - vm_compute. split; reflexivity.
  - apply list_elem_of_In. vm_compute. tauto.
Defined.

Lemma take_eq_nil (k : nat) (l : str) : take k l = [] <-> k = 0%nat \/ l = [].
Proof.
  destruct k, l; simpl; split; intros; try tauto; try discriminate;
    destruct H as [|]; discriminate.
Qed.

(** [smart_truncate] raises (the [IndexError] of [content[-1]]) exactly
    when the length is 0 and the text is not empty, or the length is
    negative and takes away every character of the text. *)
Theorem smart_truncate_raises_iff content n suffix :
  smart_truncate content n suffix = None <->
  (n = 0 /\ content <> []) \/ (n < 0 /\ len content <= - n).
Proof.
  unfold smart_truncate, last_char, len.
  destruct (Z.leb_spec (Z.of_nat (length content)) n) as [Hle|Hgt].
  - split; [discriminate|].
    intros [[-> Hc]|[Hn Hl]]; [|lia].
    destruct content; [contradiction|simpl in Hle; lia].
  - destruct (last (slice_to n content)) as [c|] eqn:E.
    + split; [discriminate|]. intros Hr. exfalso.
      assert (Hnil : slice_to n content = []).
      { unfold slice_to. destruct (Z.leb_spec 0 n).
        - apply take_eq_nil. destruct Hr as [[-> _]|[? _]]; [auto|lia].
        - apply take_eq_nil. left. lia. }
      rewrite Hnil in E. discriminate.
    + split; [intros _|reflexivity].
      apply last_None in E. unfold slice_to in E.
      destruct (Z.leb_spec 0 n).
      * apply take_eq_nil in E as [E| ->]; [|simpl in Hgt; lia].
        left. split; [lia|]. intros ->. simpl in Hgt. lia.
      * right. apply take_eq_nil in E as [E| ->]; [lia|simpl; lia].
Qed.

Lemma before_last_app sep p q :
  sep ∉ q -> before_last sep (p ++ sep :: q) = Some p.
Proof.
  intros Hq. induction p as [|c p IH]; simpl.
  - apply before_last_None in Hq. rewrite Hq, N.eqb_refl. reflexivity.
  - rewrite IH. reflexivity.
Qed.

(** The place of the cut, for a text longer than a positive limit: a
    segment that ends in a space is kept with that space; a segment that
    has a space and does not end in one loses everything from its last
    space on, even when the word after that space is complete in it. *)
Theorem smart_truncate_cut content n suffix :
  0 < n < len content ->
  (last (take (Z.to_nat n) content) = Some SPACE ->
   smart_truncate content n suffix
   = Some (take (Z.to_nat n) content ++ suffix)) /\
  (forall p q,
     take (Z.to_nat n) content = p ++ SPACE :: q -> q <> [] -> SPACE ∉ q ->
     smart_truncate content n suffix = Some (p ++ suffix)).
Proof.
  intros [Hn Hlen]. unfold smart_truncate, last_char.
  destruct (Z.leb_spec (len content) n); [lia|].
  rewrite slice_to_nonneg by lia. split.
  - intros ->. reflexivity.
  - intros p q Hseg Hq Hs. rewrite Hseg.
    rewrite last_app_cons, last_cons.
    destruct (last q) as [c|] eqn:El; [|apply last_None in El; contradiction].
    assert (c <> SPACE).
    { intros ->. apply Hs. apply last_Some_elem_of. assumption. }
    destruct (N.eqb_spec c SPACE); [contradiction|]. simpl.
    unfold rsplit1_head. rewrite before_last_app by assumption. reflexivity.
Qed.

Lemma smart_truncate_cut_witness :
  smart_truncate (py "ab cd ef") 5 default_suffix = Some (py "ab...") /\
  smart_truncate (py "ab cd ef") 6 default_suffix = Some (py "ab cd ...").
Proof.
  destruct (smart_truncate_cut (py "ab cd ef") 5 default_suffix) as [_ H5];
    [vm_compute; split; reflexivity|].
  destruct (smart_truncate_cut (py "ab cd ef") 6 default_suffix) as [H6 _];
    [vm_compute; split; reflexivity|].
  split.
  - apply (H5 (py "ab") (py "cd")); [reflexivity|discriminate|].
    apply has_char_false. reflexivity.
  - apply H6. reflexivity.
Defined.

(** The result is never made of anything but the text: it is the text
    itself, or a prefix of the text followed by the suffix. *)
Theorem smart_truncate_prefix content n suffix r :
  smart_truncate content n suffix = Some r ->
  r = content \/ exists p, p `prefix_of` content /\ r = p ++ suffix.
Proof.
  unfold smart_truncate.
  destruct (Z.leb_spec (len content) n); [intros [= <-]; auto|].
  destruct (last_char _) as [c|]; [|discriminate].
  intros [= <-]. right.
  assert (Hseg : slice_to n content `prefix_of` content).
  { unfold slice_to. destruct (0 <=? n); apply prefix_take. }
  destruct (negb _); [|eauto].
  eexists. split; [|reflexivity].
  unfold rsplit1_head.
  destruct (before_last SPACE (slice_to n content)) as [p|] eqn:B; simpl;
    [|assumption].
  apply before_last_Some in B as (q & Hq & _).
  etransitivity; [|exact Hseg]. rewrite Hq. apply prefix_app_r. reflexivity.
Qed.

Lemma smart_truncate_prefix_witness :
  py "ab..." = py "ab cd ef" \/
  exists p, p `prefix_of` py "ab cd ef" /\ py "ab..." = p ++ default_suffix.
Proof.
  apply (smart_truncate_prefix (py "ab cd ef") 5 default_suffix).
  vm_compute. reflexivity.
Defined.

(** ** Text Normalizer: white space, blank input, tags, fixed points *)

Lemma join_cons_cons sep w w' ws :
  join sep (w :: w' :: ws) = w ++ sep ++ join sep (w' :: ws).
Proof. reflexivity. Qed.

Lemma join_head w ws :
  w <> [] -> head (join [SPACE] (w :: ws)) = head w.
Proof. destruct w, ws; simpl; congruence. Qed.

Lemma join_words_tidy ws : Forall word ws -> tidy (join [SPACE] ws).
Proof.
  induction 1 as [|w ws [Hne Hw] Hws IH]; intros i c Hi Hc.
  - cbn [join] in Hi. rewrite lookup_nil in Hi. discriminate.
  - destruct ws as [|w' ws'].
    + cbn [join] in Hi. rewrite Forall_lookup in Hw.
      specialize (Hw i c Hi). simpl in Hw. congruence.
    + rewrite join_cons_cons in *.
      apply lookup_app_Some in Hi as [Hi|[Hlen Hi]].
      * rewrite Forall_lookup in Hw. specialize (Hw i c Hi). simpl in Hw.
        congruence.
      * assert (0 < length w)%nat by (destruct w; [contradiction|simpl; lia]).
        destruct (i - length w)%nat as [|j] eqn:Ej; simpl in Hi.
        -- injection Hi as <-. split; [reflexivity|]. split; [lia|].
           rewrite lookup_app_r by lia.
           replace (S i - length w)%nat with 1%nat by lia.
           change (([SPACE] ++ join [SPACE] (w' :: ws')) !! 1%nat)
             with (join [SPACE] (w' :: ws') !! 0%nat).
           inversion Hws as [|? ? [Hne' Hw'] _]; subst.
           rewrite <- head_lookup, join_head by assumption.
           destruct w' as [|d w']; [contradiction|]. exists d.
           split; [reflexivity|]. inversion Hw'; assumption.
        -- destruct (IH j c Hi Hc) as (-> & Hj & d & Hd & Hsp).
           split; [reflexivity|]. split; [lia|]. exists d.
           split; [|assumption].
           rewrite lookup_app_r by lia.
           replace (S i - length w)%nat with (S (S j)) by lia. exact Hd.
Qed.

(** The output of [clean_text], whenever it returns, is tidy: its only
    white space is single spaces between words. *)
Theorem clean_text_tidy html5 text o :
  clean_text html5 text = Some o -> tidy o.
Proof.
  intros Ho. destruct (clean_text_eq html5 text o Ho) as (ws & Hws & ->).
  apply join_words_tidy. assumption.
Qed.

Lemma clean_text_tidy_witness :
  tidy (py "Hello big " ++ [34%N] ++ py "world" ++ [34%N]).
Proof.
  apply (clean_text_tidy html5_basic (Some sample_markup)).
  vm_compute. reflexivity.
Defined.

Lemma is_space_not_markup c : is_space c = true -> c <> LT /\ c <> AMP.
Proof. intros Hc. split; intros ->; vm_compute in Hc; discriminate. Qed.

Lemma split_from_blank t :
  Forall (fun c => is_space c = true) t -> split_from [] t = [].
Proof. induction 1 as [|c t Hc _ IH]; simpl; [|rewrite Hc]; auto. Qed.

(** A text made of white space only (spaces, tabs, line ends, no-break
    spaces) is normalised to the empty text. *)
Theorem clean_text_blank html5 t :
  Forall (fun c => is_space c = true) t ->
  clean_text html5 (Some t) = Some [].
Proof.
  intros Ht. destruct t as [|c t]; [reflexivity|]. unfold clean_text.
  assert ((LT ∉ c :: t) /\ (AMP ∉ c :: t)) as [Hlt Hamp].
  { split; intros Hin; rewrite Forall_forall in Ht;
      apply Ht, is_space_not_markup in Hin; tauto. }
  rewrite sub_tags_no_lt, unescape_no_amp by assumption. simpl.
  unfold split. rewrite split_from_blank by assumption. reflexivity.
Qed.

Lemma clean_text_blank_witness :
  clean_text html5_basic (Some (py "   " ++ [9; 10; 160]%N)) = Some [].
Proof.
  apply (clean_text_blank html5_basic).
  repeat constructor.
Defined.

Lemma tag_close_app body rest :
  LT ∉ body -> GT ∉ body ->
  tag_close (body ++ GT :: rest) = Some (S (length body)).
Proof.
  induction body as [|c body IH]; simpl; intros Hl Hg.
  - reflexivity.
  - rewrite not_elem_of_cons in Hl, Hg. destruct Hl as [Hl1 Hl2].
    destruct Hg as [Hg1 Hg2].
    destruct (N.eqb_spec c GT); [congruence|].
    destruct (N.eqb_spec c LT); [congruence|].
    rewrite IH by assumption. reflexivity.
Qed.

Lemma sub_tags_app_no_lt pre s :
  LT ∉ pre -> sub_tags (pre ++ s) = pre ++ sub_tags s.
Proof.
  induction pre as [|c pre IH]; [reflexivity|].
  rewrite not_elem_of_cons. intros [Hc Hpre]. simpl.
  rewrite sub_tags_no_match, IH; [reflexivity|assumption|].
  destruct (tag_match (c :: pre ++ s)) as [k|] eqn:E; [|reflexivity].
  apply tag_match_head in E. simpl in E. congruence.
Qed.

Lemma sub_tags_tag pre body rest :
  LT ∉ pre -> body <> [] -> LT ∉ body -> GT ∉ body ->
  sub_tags (pre ++ LT :: body ++ GT :: rest) = pre ++ sub_tags rest.
Proof.
  intros Hpre Hb Hl Hg. rewrite sub_tags_app_no_lt by assumption. f_equal.
  destruct body as [|b body]; [contradiction|].
  rewrite not_elem_of_cons in Hl, Hg.
  destruct Hl as [Hl1 Hl2], Hg as [Hg1 Hg2].
  rewrite (sub_tags_match _ (S (S (S (length body))))).
  - cbn [drop]. f_equal.
    rewrite (cons_middle GT (b :: body) rest), app_assoc.
    apply drop_app_length'. rewrite length_app. simpl. lia.
  - change ((b :: body) ++ GT :: rest) with (b :: body ++ GT :: rest).
    unfold tag_match. rewrite N.eqb_refl.
    destruct (N.eqb_spec b LT); [congruence|]. cbn [andb negb].
    rewrite tag_close_app by assumption. reflexivity.
Qed.

(** A tag, that is [<], a body that is not empty and has neither [<] nor
    [>], and [>], leaves no trace: the text is normalised as if the tag
    were not there, provided no [<] stands before it. *)
Theorem clean_text_drops_tag html5 pre body rest :
  LT ∉ pre -> body <> [] -> LT ∉ body -> GT ∉ body ->
  clean_text html5 (Some (pre ++ LT :: body ++ GT :: rest))
  = clean_text html5 (Some (pre ++ rest)).
Proof.
  intros Hpre Hb Hl Hg.
  assert (Hs : sub_tags (pre ++ LT :: body ++ GT :: rest)
               = sub_tags (pre ++ rest)).
  { rewrite sub_tags_tag, sub_tags_app_no_lt by assumption. reflexivity. }
  unfold clean_text.
  destruct (pre ++ LT :: body ++ GT :: rest) as [|c t] eqn:E1.
  { destruct pre; discriminate. }
  rewrite Hs. destruct (pre ++ rest) as [|c' t'] eqn:E2; [|reflexivity].
  reflexivity.
Qed.

Lemma clean_text_drops_tag_witness :
  clean_text html5_basic (Some (py "big <span class='x'>news</span>"))
  = clean_text html5_basic (Some (py "big news</span>")).
Proof.
  apply (clean_text_drops_tag html5_basic (py "big ") (py "span class='x'")
           (py "news</span>"));
    try (apply has_char_false; reflexivity).
  discriminate.
Defined.

(** The fixed points: words joined by single spaces, with neither [<] nor
    [&] in them, are returned as they are. *)
Theorem clean_text_fixed_point html5 ws :
  Forall word ws ->
  LT ∉ join [SPACE] ws -> AMP ∉ join [SPACE] ws ->
  clean_text html5 (Some (join [SPACE] ws)) = Some (join [SPACE] ws).
Proof.
  intros Hws Hlt Hamp. unfold clean_text.
  destruct (join [SPACE] ws) as [|c t] eqn:E; [reflexivity|].
  rewrite sub_tags_no_lt, unescape_no_amp by assumption. simpl.
  rewrite <- E, split_join by assumption. reflexivity.
Qed.

Lemma clean_text_fixed_point_witness :
  clean_text html5_basic (Some (py "Hello big world"))
  = Some (py "Hello big world").
Proof.
  apply (clean_text_fixed_point html5_basic
           [py "Hello"; py "big"; py "world"]).
  - repeat constructor; discriminate.
  - apply has_char_false. reflexivity.
  - apply has_char_false. reflexivity.
Defined.

(** ** Date reformatting: stability and impossible dates *)

Lemma match_items_third_not_digit x y c rest :
  digit c = false -> match_items format_regex (x :: y :: c :: rest) = None.
Proof.
  intros Hc. unfold format_regex, group_Y.
  cbn [match_items match_classes].
  destruct (digit x); [|reflexivity].
  destruct (digit y); [|reflexivity].
  rewrite Hc. reflexivity.
Qed.

(** Reformatting a reformatted date changes nothing: the display text is
    never taken for a timestamp. *)
Theorem parse_date_idempotent s : parse_date (parse_date s) = parse_date s.
Proof.
  unfold parse_date at 2 3. destruct (strptime s) as [dt|] eqn:E.
  - unfold parse_date, strptime, strftime, two_digits.
    cbn [app]. rewrite match_items_third_not_digit by reflexivity.
    reflexivity.
  - unfold parse_date. rewrite E. reflexivity.
Qed.

Lemma first_alt_group_S_leap rest v :
  (v <= 61)%N ->
  first_alt group_S (two_digits v ++ rest) = Some (two_digits v, rest).
Proof.
  intros H2. assert (Hv : (v < N.of_nat 62)%N) by lia.
  clear H2. revert v Hv. enum_below 62%nat.
Qed.

Lemma fits_pattern_bounds dt :
  fits_pattern dt = true ->
  (year dt <= 9999 /\ 1 <= month dt <= 12 /\ 1 <= day dt <= 31 /\
   hour dt <= 23 /\ minute dt <= 59 /\ second dt <= 61)%N.
Proof.
  unfold fits_pattern. rewrite !andb_true_iff, !N.leb_le. tauto.
Qed.

Lemma strptime_isoformat_pattern dt :
  fits_pattern dt = true ->
  strptime (isoformat dt) = if valid_datetime dt then Some dt else None.
Proof.
  intros H. apply fits_pattern_bounds in H as (Hy & Hm & Hd & HH & HM & HS).
  assert (Hmatch :
    match_items format_regex (isoformat dt)
    = Some ([four_digits (year dt); two_digits (month dt);
             two_digits (day dt); two_digits (hour dt);
             two_digits (minute dt); two_digits (second dt)], [])).
  { unfold format_regex, isoformat.
    eapply match_items_group; [apply first_alt_group_Y; lia|].
    rewrite match_items_lit.
    eapply match_items_group; [apply first_alt_group_m; lia|].
    rewrite match_items_lit.
    eapply match_items_group; [apply first_alt_group_d; lia|].
    rewrite match_items_lit.
    eapply match_items_group; [apply first_alt_group_H; lia|].
    rewrite match_items_lit.
    eapply match_items_group; [apply first_alt_group_M; lia|].
    rewrite match_items_lit.
    eapply match_items_group; [apply first_alt_group_S_leap; lia|].
    rewrite match_items_lit. reflexivity. }
  unfold strptime. rewrite Hmatch.
  rewrite int_of_group_four_digits, !int_of_group_two_digits by lia.
  destruct dt; reflexivity.
Qed.

(** A padded timestamp whose fields fit the pattern is reformatted exactly
    when it names a real date and time: with a year of at least 1, a day
    that exists in the month of that year and at most 59 seconds.  A
    timestamp of a day that does not exist or of a leap second is shown
    as it came. *)
Theorem parse_date_pattern dt :
  fits_pattern dt = true ->
  parse_date (isoformat dt)
  = if valid_datetime dt then strftime dt else isoformat dt.
Proof.
  intros H. unfold parse_date. rewrite strptime_isoformat_pattern by assumption.
  destruct (valid_datetime dt); reflexivity.
Qed.

Lemma parse_date_pattern_witness :
  parse_date (py "2023-02-29T10:00:00Z") = py "2023-02-29T10:00:00Z" /\
  parse_date (py "2016-12-31T23:59:60Z") = py "2016-12-31T23:59:60Z" /\
  parse_date (py "2024-02-29T10:00:00Z") = py "29 Feb 2024".
Proof.
  split; [|split].
  - exact (parse_date_pattern (mk_datetime 2023 2 29 10 0 0) eq_refl).
  - exact (parse_date_pattern (mk_datetime 2016 12 31 23 59 60) eq_refl).
  - exact (parse_date_pattern (mk_datetime 2024 2 29 10 0 0) eq_refl).
Defined.

(** ** Text Normalizer: numeric references *)

Lemma digit_value_ascii n : (n < 10)%N -> digit_value (48 + n) = n.
Proof.
  intros Hn. unfold digit_value, in_range.
  destruct (N.leb_spec 48 (48 + n)); [|lia].
  destruct (N.leb_spec (48 + n) 57); [|lia]. simpl. lia.
Qed.

Lemma is_dec_digit_ascii n : (n < 10)%N -> is_dec_digit (48 + n) = true.
Proof.
  intros Hn. unfold is_dec_digit, in_range.
  destruct (N.leb_spec 48 (48 + n)); [|lia].
  destruct (N.leb_spec (48 + n) 57); [reflexivity|lia].
Qed.

Lemma decimal_from_int fuel n acc :
  Z.of_N n < 2 ^ Z.of_nat fuel ->
  fold_left (fun a c => a * 10 + digit_value c)%N (decimal_from fuel n acc) 0%N
  = fold_left (fun a c => a * 10 + digit_value c)%N acc n.
Proof.
  revert n acc. induction fuel as [|fuel IH]; intros n acc Hn.
  - simpl in *. replace n with 0%N by lia. reflexivity.
  - cbn [decimal_from]. destruct (N.ltb_spec n 10).
    + cbn [fold_left]. rewrite digit_value_ascii by assumption. reflexivity.
    + rewrite IH.
      * cbn [fold_left]. rewrite digit_value_ascii by lia_div.
        f_equal. lia_div.
      * rewrite Nat2Z.inj_succ, Z.pow_succ_r in Hn by lia. lia_div.
Qed.

Lemma decimal_from_digits fuel n acc :
  Forall (fun c => is_dec_digit c = true) acc ->
  Forall (fun c => is_dec_digit c = true) (decimal_from fuel n acc).
Proof.
  revert n acc. induction fuel as [|fuel IH]; intros n acc Hacc; [exact Hacc|].
  cbn [decimal_from]. destruct (N.ltb_spec n 10).
  - constructor; [apply is_dec_digit_ascii|]; assumption.
  - apply IH. constructor; [apply is_dec_digit_ascii; lia_div|assumption].
Qed.

Lemma decimal_from_cons fuel n acc :
  acc <> [] -> decimal_from fuel n acc <> [].
Proof.
  revert n acc. induction fuel as [|fuel IH]; intros n acc Hacc; [exact Hacc|].
  cbn [decimal_from]. destruct (n <? 10)%N; [discriminate|].
  apply IH. discriminate.
Qed.

Lemma decimal_not_nil n : decimal n <> [].
Proof.
  unfold decimal. cbn [decimal_from]. destruct (n <? 10)%N; [discriminate|].
  apply decimal_from_cons. discriminate.
Qed.

Lemma decimal_digits n : Forall (fun c => is_dec_digit c = true) (decimal n).
Proof. apply decimal_from_digits. constructor. Qed.

Lemma decimal_from_length fuel n acc :
  (length (decimal_from fuel n acc) <= fuel + length acc)%nat.
Proof.
  revert n acc. induction fuel as [|fuel IH]; intros n acc; [simpl; lia|].
  cbn [decimal_from]. destruct (n <? 10)%N; [simpl; lia|].
  etransitivity; [apply IH|]. simpl. lia.
Qed.

(** Reading a number printed in decimal gives the number back, as long as
    the print is within the limit on the digits of a decimal text. *)
Lemma int_of_decimal n :
  (N.size_nat n < MAX_STR_DIGITS)%nat -> int_of 10 (decimal n) = Some n.
Proof.
  intros Hn. unfold int_of. rewrite N.eqb_refl. cbn [andb].
  destruct (Nat.ltb_spec MAX_STR_DIGITS (length (decimal n))) as [Hlen|_].
  - exfalso. pose proof (decimal_from_length (S (N.size_nat n)) n []) as Hl.
    unfold decimal in Hlen. unfold MAX_STR_DIGITS in *.
    cbn [length] in Hl. lia.
  - f_equal. unfold decimal. rewrite decimal_from_int; [reflexivity|].
    destruct n as [|p]; [reflexivity|].
    change (Z.of_N (N.pos p)) with (Z.pos p).
    apply Zpower2_Psize. simpl. lia.
Qed.

(** The code points of Unicode are printed with at most 21 binary digits. *)
Lemma size_nat_code_point c : (c <= 0x10FFFF)%N -> (N.size_nat c <= 21)%nat.
Proof.
  intros Hc. destruct c as [|p]; [simpl; lia|].
  change (N.size_nat (N.pos p)) with (Pos.size_nat p).
  apply Zpower2_Psize. change (2 ^ Z.of_nat 21) with 2097152. lia.
Qed.

Lemma span_while_app p a b :
  Forall (fun c => p c = true) a ->
  match b with [] => True | c :: _ => p c = false end ->
  span_while p (a ++ b) = (a, b).
Proof.
  intros Ha Hb. induction Ha as [|c a Hc _ IH]; simpl.
  - destruct b as [|c b]; [reflexivity|]. simpl. rewrite Hb. reflexivity.
  - rewrite Hc, IH. reflexivity.
Qed.

Lemma charref_sub_from_skip_all html5 r k :
  (length r <= k)%nat -> charref_sub_from html5 k r = Some [].
Proof.
  revert k. induction r as [|c r IH]; intros k Hk; [reflexivity|].
  simpl in Hk. destruct k as [|k]; [lia|]. simpl. apply IH. lia.
Qed.

(** The equation of the scan at a reference. *)
Lemma charref_sub_from_match html5 r g :
  charref_match r = Some g ->
  charref_sub_from html5 0 (AMP :: r)
  = (replacement ← _replace_charref html5 g;
     rest ← charref_sub_from html5 (length g) r;
     Some (replacement ++ rest)).
Proof.
  intros Hm. cbn [charref_sub_from]. rewrite N.eqb_refl, Hm. reflexivity.
Qed.

Lemma is_dec_digit_not c :
  is_dec_digit c = true ->
  c <> LT /\ c <> SEMI /\ c <> 120%N /\ c <> 88%N.
Proof.
  intros Hc. repeat split; intros ->; vm_compute in Hc; discriminate.
Qed.

Lemma rstrip_semi_digits ds :
  Forall (fun c => is_dec_digit c = true) ds ->
  rstrip_semi (ds ++ [SEMI]) = ds.
Proof.
  intros Hds. unfold rstrip_semi. rewrite reverse_app. simpl.
  change (reverse [SEMI]) with [SEMI]. simpl.
  assert (Hspan : span_while (N.eqb SEMI) (reverse ds) = ([], reverse ds)).
  { apply (span_while_app _ []); [constructor|].
    destruct (reverse ds) as [|c r] eqn:E; [exact I|].
    assert (Hc : c ∈ reverse ds) by (rewrite E; left).
    rewrite elem_of_reverse in Hc. rewrite Forall_forall in Hds.
    apply Hds, is_dec_digit_not in Hc as (_ & Hc & _).
    destruct (N.eqb_spec SEMI c); congruence. }
  rewrite Hspan. simpl. apply reverse_involutive.
Qed.

(** A numeric reference in decimal to a plain code point is normalised to
    that one character. *)
Theorem clean_text_numeric_reference html5 c :
  plain_code_point c = true ->
  clean_text html5 (Some (AMP :: HASH :: decimal c ++ [SEMI])) = Some [c].
Proof.
  unfold plain_code_point. rewrite !andb_true_iff, !negb_true_iff.
  intros [[[Hk Hr] Hi] Hs]. apply bool_decide_eq_true in Hk.
  pose proof (decimal_digits c) as Hd. pose proof (decimal_not_nil c) as Hne.
  unfold clean_text.
  rewrite sub_tags_no_lt.
  2:{ rewrite !not_elem_of_cons, not_elem_of_app, not_elem_of_cons.
      repeat split; try discriminate; [|apply not_elem_of_nil].
      intros Hin. rewrite Forall_forall in Hd.
      apply Hd, is_dec_digit_not in Hin. tauto. }
  unfold unescape. cbn [has_char existsb]. rewrite N.eqb_refl. cbn [orb].
  assert (Hm : charref_match (HASH :: decimal c ++ [SEMI])
               = Some (HASH :: decimal c ++ [SEMI])).
  { unfold charref_match. rewrite N.eqb_refl.
    rewrite (span_while_app is_dec_digit (decimal c) [SEMI]) by
      (assumption || reflexivity).
    destruct (decimal c); [contradiction|reflexivity]. }
  rewrite (charref_sub_from_match _ _ _ Hm).
  rewrite charref_sub_from_skip_all by reflexivity.
  assert (Hrep : _replace_charref html5 (HASH :: decimal c ++ [SEMI])
                 = Some [c]).
  { unfold _replace_charref. rewrite N.eqb_refl.
    destruct (decimal c) as [|d ds] eqn:E; [contradiction|].
    cbn [app].
    assert (is_dec_digit d = true) as Hdd by (inversion Hd; assumption).
    apply is_dec_digit_not in Hdd as (_ & _ & Hx1 & Hx2).
    destruct (N.eqb_spec d 120); [contradiction|].
    destruct (N.eqb_spec d 88); [contradiction|]. cbn [orb].
    change (d :: ds ++ [SEMI]) with ((d :: ds) ++ [SEMI]).
    rewrite rstrip_semi_digits by assumption.
    rewrite <- E, int_of_decimal.
    - cbn [mbind option_bind]. rewrite Hk, Hr, Hi. reflexivity.
    - apply orb_false_iff in Hr as [_ Hr]. apply N.ltb_ge in Hr.
      apply size_nat_code_point in Hr. unfold MAX_STR_DIGITS. lia. }
  rewrite Hrep. cbn [mbind option_bind app]. unfold split. cbn [split_from].
  rewrite Hs. reflexivity.
Qed.

Lemma clean_text_numeric_reference_witness :
  clean_text html5_basic (Some (py "&#8364;")) = Some [8364%N].
Proof.
  exact (clean_text_numeric_reference html5_basic 8364 eq_refl).
Defined.

(** ** The views over the libraries: further properties *)

Lemma smart_truncate_shape content n suffix r :
  0 <= n ->
  smart_truncate content n suffix = Some r ->
  (r = content /\ len content <= n) \/
  exists p, p `prefix_of` content /\ r = p ++ suffix /\
            (length p <= Z.to_nat n)%nat.
Proof.
  intros Hn. unfold smart_truncate.
  destruct (Z.leb_spec (len content) n); [intros [= <-]; auto|].
  rewrite slice_to_nonneg by assumption.
  destruct (last_char _) as [c|]; [|discriminate].
  intros [= <-]. right.
  pose proof (prefix_take content (Z.to_nat n)) as Hseg.
  assert (Hlen : (length (take (Z.to_nat n) content) <= Z.to_nat n)%nat)
    by (rewrite length_take; lia).
  destruct (negb _); [|eauto].
  eexists. split; [|split; [reflexivity|]].
  - unfold rsplit1_head.
    destruct (before_last SPACE (take (Z.to_nat n) content)) as [p|] eqn:B;
      simpl; [|assumption].
    apply before_last_Some in B as (q & Hq & _).
    etransitivity; [|exact Hseg]. rewrite Hq. apply prefix_app_r. reflexivity.
  - pose proof (rsplit1_head_length SPACE (take (Z.to_nat n) content)). lia.
Qed.

Lemma tidy_prefix_suffix t p :
  tidy t -> p `prefix_of` t -> tidy (p ++ default_suffix).
Proof.
  intros Ht [k ->] i c Hi Hc.
  apply lookup_app_Some in Hi as [Hi|[Hlen Hi]].
  - destruct (Ht i c) as (-> & Hpos & d & Hd & Hsp);
      [apply lookup_app_l_Some; assumption|assumption|].
    split; [reflexivity|]. split; [assumption|].
    destruct (p !! S i) as [d'|] eqn:E.
    + exists d'. split; [apply lookup_app_l_Some; assumption|].
      rewrite (lookup_app_l_Some _ k _ _ E) in Hd. congruence.
    + apply lookup_ge_None in E. apply lookup_lt_Some in Hi.
      exists 46%N. split; [|reflexivity].
      rewrite lookup_app_r by lia.
      replace (S i - length p)%nat with 0%nat by lia. reflexivity.
  - exfalso. change default_suffix with [46; 46; 46]%N in Hi.
    destruct (i - length p)%nat as [|[|[|j]]]; simpl in Hi;
      try discriminate; injection Hi as <-; vm_compute in Hc; discriminate.
Qed.

Section ViewInvariants.

Context `{Library}.

(** The resolved link of a link that is not empty is not empty. *)
Theorem get_real_url_nonempty google_url :
  google_url <> [] -> get_real_url google_url <> [].
Proof.
  intros Hne. unfold get_real_url, get_real_url_try.
  destruct (urlparse google_url) as [parsed|]; [|exact Hne]. simpl.
  destruct (parse_qs (query parsed)) as [qs|]; [|exact Hne]. simpl.
  destruct (head _) as [[[|c v]|]|]; simpl; try exact Hne. discriminate.
Qed.

(** An [og:description] tag without a content attribute hides the
    standard description: the description is the empty text, whatever
    the [description] meta tag holds. *)
Theorem scrape_article_data_empty_og_description url response soup og_desc :
  truthy url = true ->
  requests_get (default [] url) = Some response ->
  status_code response = 200 ->
  BeautifulSoup (response_content response) = Some soup ->
  find_meta_property soup (py "og:description") = Some og_desc ->
  tag_get og_desc (py "content") = None ->
  description (scrape_article_data url) = Some [].
Proof.
  intros Hu Hr Hs Hb Hf Hg. unfold scrape_article_data.
  rewrite Hu, Hr, Hs, Hb, Hf, Hg. reflexivity.
Qed.

Lemma scrape_article_data_description_tidy_aux url d :
  description (scrape_article_data url) = Some d -> tidy d.
Proof.
  unfold scrape_article_data, no_data.
  destruct (negb (truthy url)); [discriminate|].
  destruct (requests_get _) as [response|]; [|discriminate].
  destruct (_ =? _); [|discriminate].
  destruct (BeautifulSoup _) as [soup|]; [|discriminate].
  assert (Hc : forall v o, clean_text html5_names v = Some o -> tidy o).
  { intros v o Ho.
    destruct (clean_text_eq html5_names v o Ho) as (ws & Hws & ->).
    apply join_words_tidy. assumption. }
  destruct (find_meta_property soup (py "og:image"));
    (destruct (find_meta_property soup (py "og:description")) as [og_desc|];
     [destruct (clean_text html5_names (tag_get og_desc _)) eqn:E
     |destruct (find_meta_name soup (py "description")) as [meta_desc|];
      [destruct (clean_text html5_names (tag_get meta_desc _)) eqn:E|]]);
    simpl; try discriminate; intros [= <-]; eapply Hc; exact E.
Qed.

(** A description that was scraped is tidy: its only white space is
    single spaces between words. *)
Theorem scrape_article_data_description_tidy url d :
  description (scrape_article_data url) = Some d -> tidy d.
Proof. apply scrape_article_data_description_tidy_aux. Qed.

(** [process_single_post] raises in exactly these cases: [clean_text]
    raises on the title (the [ValueError] of an overlong decimal
    reference); or the page gave no usable description and the entry has
    no content (the [IndexError] of [entry.content[0]]) or [clean_text]
    raises on the snippet of its first content item. *)
Theorem process_single_post_raises_iff entry :
  process_single_post entry = None <->
  clean_text html5_names (Some (title entry)) = None \/
  (truthy (description
             (scrape_article_data (Some (get_real_url (link entry))))) = false
   /\ (content entry = [] \/
       exists item rest,
         content entry = item :: rest /\
         clean_text html5_names (Some (value item)) = None)).
Proof.
  unfold process_single_post.
  destruct (clean_text html5_names (Some (title entry))) as [t|];
    [|split; auto].
  simpl. destruct (truthy (description _)).
  - destruct (smart_truncate_default_total
                (default [] (description
                   (scrape_article_data (Some (get_real_url (link entry)))))))
      as [ex ->]. simpl.
    split; [discriminate|intros [?|[? _]]; discriminate].
  - destruct (content entry) as [|item rest]; simpl.
    + split; auto.
    + destruct (clean_text html5_names (Some (value item))) as [sn|] eqn:Hs;
        simpl.
      * destruct (smart_truncate_default_total sn) as [ex ->]. simpl.
        split; [discriminate|].
        intros [?|[_ [?|(i & r & Hc & Hn)]]]; try discriminate.
        injection Hc as <- <-. congruence.
      * split; [|reflexivity]. intros _. right. split; [reflexivity|].
        right. exists item, rest. split; [reflexivity|exact Hs].
Qed.

Lemma process_single_post_excerpt entry record :
  process_single_post entry = Some record ->
  exists t,
    tidy t /\ smart_truncate_default t = Some (post_excerpt record).
Proof.
  unfold process_single_post.
  destruct (clean_text html5_names (Some (title entry))) as [ct|];
    [|discriminate]. simpl.
  set (scraped := scrape_article_data (Some (get_real_url (link entry)))).
  destruct (truthy (description scraped)) eqn:Ht.
  - destruct (description scraped) as [d|] eqn:Hd; [|discriminate].
    simpl. destruct (smart_truncate_default d) as [ex|] eqn:Hex;
      [|discriminate].
    simpl. intros [= <-]. exists d. split; [|assumption].
    eapply scrape_article_data_description_tidy_aux. exact Hd.
  - destruct (content entry) as [|item rest]; [discriminate|]. simpl.
    destruct (clean_text html5_names (Some (value item))) as [sn|] eqn:Hs;
      [|discriminate]. simpl.
    destruct (smart_truncate_default sn) as [ex|] eqn:Hex; [|discriminate].
    simpl. intros [= <-]. exists sn. split; [|exact Hex].
    destruct (clean_text_eq html5_names _ _ Hs) as (ws & Hws & ->).
    apply join_words_tidy. assumption.
Qed.

(** The excerpt of a record has at most 163 characters: 160 and the
    suffix. *)
Theorem process_single_post_excerpt_bounded entry record :
  process_single_post entry = Some record ->
  (length (post_excerpt record) <= 163)%nat.
Proof.
  intros Hp. apply process_single_post_excerpt in Hp as (t & _ & Ht).
  apply smart_truncate_shape in Ht as [[-> Hl]|(p & _ & -> & Hl)];
    [| |unfold default_length; lia].
  - unfold len, default_length in Hl. lia.
  - rewrite length_app. unfold default_length in Hl.
    change (length default_suffix) with 3%nat. lia.
Qed.

(** The excerpt of a record is tidy, with or without the suffix. *)
Theorem process_single_post_excerpt_tidy entry record :
  process_single_post entry = Some record -> tidy (post_excerpt record).
Proof.
  intros Hp. apply process_single_post_excerpt in Hp as (t & Htidy & Ht).
  apply smart_truncate_shape in Ht as [[-> _]|(p & Hpre & -> & _)];
    [assumption| |unfold default_length; lia].
  eapply tidy_prefix_suffix; eassumption.
Qed.

(** The image of a record is never empty: it is the image of the page or
    the placeholder. *)
Theorem process_single_post_image entry record :
  process_single_post entry = Some record ->
  post_image record <> [] /\
  (post_image record = PLACEHOLDER \/
   image (scrape_article_data (Some (get_real_url (link entry))))
   = Some (post_image record)).
Proof.
  unfold process_single_post.
  destruct (clean_text html5_names (Some (title entry))) as [ct|];
    [|discriminate]. simpl.
  destruct (if truthy _ then _ else _) as [ex|]; [|discriminate]. simpl.
  intros [= <-]. simpl.
  destruct (image _) as [[|c i]|]; simpl; split;
    (discriminate || auto).
Qed.

(** When [clean_text] returns on the title, a description of the page
    that is not empty makes the excerpt, and the content of the feed entry
    is not read: the entry is processed even when it has none. *)
Theorem process_single_post_prefers_page entry clean_title d :
  clean_text html5_names (Some (title entry)) = Some clean_title ->
  description (scrape_article_data (Some (get_real_url (link entry))))
  = Some d ->
  d <> [] ->
  exists record excerpt,
    process_single_post entry = Some record /\
    smart_truncate_default d = Some excerpt /\
    post_title record = clean_title /\
    post_excerpt record = excerpt.
Proof.
  intros Ht Hd Hne. unfold process_single_post. rewrite Ht, Hd.
  destruct d as [|c d]; [contradiction|]. simpl.
  destruct (smart_truncate_default_total (c :: d)) as [ex Hex].
  rewrite Hex. simpl. eexists _, ex. repeat split; reflexivity.
Qed.

(** ** The cache and the views: further properties *)

(** What a call changes: never the clock, never another key of the cache,
    and the key of the news only to store the list it returns, for 900
    time units. *)
Theorem get_cached_news_frame w :
  now (snd (get_cached_news w)) = now w /\
  (forall k, k <> CACHE_KEY ->
     cache (snd (get_cached_news w)) !! k = cache w !! k) /\
  (cache (snd (get_cached_news w)) = cache w \/
   exists records,
     fst (get_cached_news w) = Some records /\
     cache (snd (get_cached_news w))
     = <[CACHE_KEY := {| cached_value := records;
                         expires_at := now w + 900 |}]> (cache w)).
Proof.
  unfold get_cached_news.
  destruct (cache_get CACHE_KEY w) as [[|p ps]|];
    try (repeat split; auto; fail);
    (destruct (status _) as [st|]; [|repeat split; auto];
     destruct (negb _); [repeat split; auto|];
     destruct (mapM _ _) as [records|]; [|repeat split; auto];
     split; [reflexivity|]; split;
     [intros k Hk; simpl; rewrite lookup_insert_ne by congruence; reflexivity
     |right; exists records; split; reflexivity]).
Qed.

(** A list that is returned is never a part of the feed: on a miss it is
    empty, for a feed whose status is not 200, or it has the record of
    every entry, in order, for a feed of status 200. *)
Theorem get_cached_news_complete w records :
  cache_get CACHE_KEY w = None \/ cache_get CACHE_KEY w = Some [] ->
  fst (get_cached_news w) = Some records ->
  (records = [] /\
   exists st, status (feedparser_parse RSS_URL) = Some st /\ st <> 200) \/
  (status (feedparser_parse RSS_URL) = Some 200 /\
   Forall2 (fun e r => process_single_post e = Some r)
     (entries (feedparser_parse RSS_URL)) records).
Proof.
  intros Hm. rewrite get_cached_news_miss by assumption.
  destruct (status _) as [st|]; [|discriminate].
  destruct (Z.eqb_spec st 200) as [->|Hst]; simpl.
  - destruct (mapM _ _) as [rs|] eqn:E; [|discriminate]. simpl.
    intros [= <-]. right. split; [reflexivity|]. apply mapM_Some_1. exact E.
  - intros [= <-]. left. split; [reflexivity|]. eauto.
Qed.

(** A call raises exactly on a miss when the feed has no status, or has
    status 200 and an entry on which [process_single_post] raises; the
    cache is then left as it was. *)
Theorem get_cached_news_raises_iff w :
  (fst (get_cached_news w) = None <->
   (cache_get CACHE_KEY w = None \/ cache_get CACHE_KEY w = Some []) /\
   (status (feedparser_parse RSS_URL) = None \/
    status (feedparser_parse RSS_URL) = Some 200 /\
    Exists (fun e => process_single_post e = None)
      (entries (feedparser_parse RSS_URL)))) /\
  (fst (get_cached_news w) = None ->
   cache (snd (get_cached_news w)) = cache w).
Proof.
  destruct (cache_get CACHE_KEY w) as [[|p ps]|] eqn:Hg.
  2:{ rewrite (get_cached_news_hit w (p :: ps)) by (assumption || discriminate).
      simpl. split; [|discriminate].
      split; [discriminate|]. intros [[?|?] _]; discriminate. }
  all: rewrite get_cached_news_miss by auto;
    destruct (status _) as [st|]; simpl;
    [|split; [split; auto|reflexivity]];
    (destruct (Z.eqb_spec st 200) as [->|Hst]; simpl;
     [destruct (mapM _ _) as [rs|] eqn:E; simpl;
      [split; [|discriminate]; split; [discriminate|];
       intros [_ [?|[_ Hex]]]; [discriminate|];
       apply mapM_None_2 in Hex; congruence
      |split; [|reflexivity]; split; [|reflexivity]; intros _;
       split; [auto|]; right; split; [reflexivity|];
       apply mapM_None_1; exact E]
     |split; [|discriminate]; split; [discriminate|];
      intros [_ [?|[? _]]]; congruence]).
Qed.

(** After a run that returned a list that is not empty, every call within
    the next 900 time units returns that list and fetches nothing; the
    first call from 900 time units on fetches the feed again. *)
Theorem get_cached_news_twice w records w1 :
  cache_get CACHE_KEY w = None \/ cache_get CACHE_KEY w = Some [] ->
  get_cached_news w = (Some records, w1) ->
  records <> [] ->
  (forall d, 0 <= d < 900 ->
     get_cached_news (tick d w1) = (Some records, tick d w1)) /\
  (forall d, 900 <= d ->
     feed_fetches (snd (get_cached_news (tick d w1)))
     = S (feed_fetches w1)).
Proof.
  intros Hm Hrun Hne. rewrite get_cached_news_miss in Hrun by assumption.
  assert (Hw1 : w1 = cache_set CACHE_KEY records 900 (count_fetch w)).
  { destruct (status _) as [st|]; [|discriminate].
    destruct (negb _); [injection Hrun as <- _; contradiction|].
    destruct (mapM _ _); [|discriminate]. congruence. }
  subst w1. split; intros d Hd.
  - apply get_cached_news_hit; [|assumption].
    rewrite cache_get_set. destruct (Z.ltb_spec d 900); [reflexivity|lia].
  - rewrite get_cached_news_miss_fetches; [reflexivity|]. left.
    rewrite cache_get_set. destruct (Z.ltb_spec d 900); [lia|reflexivity].
Qed.

(** The two views agree: after [posts] ran the pipeline and showed a list
    that is not empty, [index] shows within the next 900 time units the
    first six records of that list, and fetches nothing. *)
Theorem index_after_posts w records w1 d :
  cache_get CACHE_KEY w = None \/ cache_get CACHE_KEY w = Some [] ->
  posts w = (Some records, w1) ->
  records <> [] ->
  0 <= d < 900 ->
  index (tick d w1) = (Some (take 6 records), tick d w1) /\
  (length (take 6 records) <= 6)%nat.
Proof.
  intros Hm Hrun Hne Hd. unfold posts in Hrun. unfold index.
  rewrite get_cached_news_miss in Hrun by assumption.
  assert (Hw1 : w1 = cache_set CACHE_KEY records 900 (count_fetch w)).
  { destruct (status _) as [st|]; [|discriminate].
    destruct (negb _); [injection Hrun as <- _; contradiction|].
    destruct (mapM _ _); [|discriminate]. congruence. }
  subst w1.
  rewrite (get_cached_news_hit _ records); [|..|assumption].
  - split; [reflexivity|]. rewrite length_take. lia.
  - rewrite cache_get_set. destruct (Z.ltb_spec d 900); [reflexivity|lia].
Qed.

End ViewInvariants.

(** ** The further properties on the sample webs *)

Lemma get_real_url_nonempty_witness :
  @get_real_url (sample_library 200) sample_wrapped <> [].
Proof.
  apply (@get_real_url_nonempty (sample_library 200) sample_wrapped).
  discriminate.
Defined.

Lemma scrape_article_data_empty_og_description_witness :
  description
    (@scrape_article_data (page_library bare_og_tags) (Some sample_page_a))
  = Some [].
Proof.
  apply (@scrape_article_data_empty_og_description
           (page_library bare_og_tags) (Some sample_page_a)
           {| status_code := 200; response_content := [] |} bare_og_tags
           [ (py "property", py "og:description") ]);
    vm_compute; reflexivity.
Defined.

Lemma scrape_article_data_description_tidy_witness :
  tidy (py "Full summary.").
Proof.
  apply (@scrape_article_data_description_tidy (sample_library 200)
           (Some sample_page_a)).
  vm_compute. reflexivity.
Defined.

(** The second record of the sample feed, and the record of its first
    entry. *)
Lemma process_single_post_sample_first :
  @process_single_post (sample_library 200)
    {| title := py "<b>First</b> story"; link := sample_wrapped;
       published := py "2024-01-07T10:00:00Z";
       content := [ {| value := py "Snippet of the first story" |} ] |}
  = Some {| post_title := py "First story"; post_date := py "07 Jan 2024";
            post_excerpt := py "Full summary."; post_link := sample_page_a;
            post_image := py "https://news.example/a.png" |}.
Proof. vm_compute. reflexivity. Qed.

Lemma process_single_post_excerpt_bounded_witness :
  (length (py "Full summary.") <= 163)%nat.
Proof.
  exact (@process_single_post_excerpt_bounded (sample_library 200) _ _
           process_single_post_sample_first).
Defined.

Lemma process_single_post_excerpt_tidy_witness :
  tidy (py "Full summary.").
Proof.
  exact (@process_single_post_excerpt_tidy (sample_library 200) _ _
           process_single_post_sample_first).
Defined.

Lemma process_single_post_image_witness :
  py "https://news.example/a.png" <> [] /\
  (py "https://news.example/a.png" = PLACEHOLDER \/
   image (@scrape_article_data (sample_library 200)
            (Some (@get_real_url (sample_library 200) sample_wrapped)))
   = Some (py "https://news.example/a.png")).
Proof.
  exact (@process_single_post_image (sample_library 200) _ _
           process_single_post_sample_first).
Defined.

Lemma process_single_post_prefers_page_witness :
  exists record excerpt,
    @process_single_post (page_library
        [ [ (py "property", py "og:description");
            (py "content", py "From the page") ] ]) bare_entry
    = Some record /\
    smart_truncate_default (py "From the page") = Some excerpt /\
    post_title record = py "Bare" /\
    post_excerpt record = excerpt.
Proof.
  apply (@process_single_post_prefers_page
           (page_library [ [ (py "property", py "og:description");
                             (py "content", py "From the page") ] ])
           bare_entry (py "Bare") (py "From the page")).
  - vm_compute. reflexivity.
  - vm_compute. reflexivity.
  - discriminate.
Defined.

Lemma get_cached_news_complete_witness :
  (sample_posts = [] /\
   exists st, status (@feedparser_parse (sample_library 200) RSS_URL) = Some st
              /\ st <> 200) \/
  (status (@feedparser_parse (sample_library 200) RSS_URL) = Some 200 /\
   Forall2 (fun e r => @process_single_post (sample_library 200) e = Some r)
     (entries (@feedparser_parse (sample_library 200) RSS_URL)) sample_posts).
Proof.
  apply (@get_cached_news_complete (sample_library 200) empty_world).
  - left. vm_compute. reflexivity.
  - vm_compute. reflexivity.
Defined.

(** A feed without a status and a feed with an entry that cannot be
    processed both make the call raise, and nothing is stored. *)
Lemma get_cached_news_raises_iff_witness :
  fst (@get_cached_news
         (feed_library {| status := None; entries := [] |}) empty_world)
  = None /\
  fst (@get_cached_news
         (feed_library {| status := Some 200; entries := [bare_entry] |})
         empty_world)
  = None /\
  cache (snd (@get_cached_news
                (feed_library {| status := Some 200;
                                 entries := [bare_entry] |}) empty_world))
  = cache empty_world.
Proof.
  destruct (@get_cached_news_raises_iff
              (feed_library {| status := None; entries := [] |}) empty_world)
    as [[_ Hnone] _].
  destruct (@get_cached_news_raises_iff
              (feed_library {| status := Some 200; entries := [bare_entry] |})
              empty_world) as [[_ Hbare] Hcache].
  assert (Hraise :
    fst (@get_cached_news
           (feed_library {| status := Some 200; entries := [bare_entry] |})
           empty_world) = None).
  { apply Hbare. split; [left; vm_compute; reflexivity|].
    right. split; [reflexivity|]. left. vm_compute. reflexivity. }
  split; [|split; [exact Hraise|exact (Hcache Hraise)]].
  apply Hnone. split; [left; vm_compute; reflexivity|]. left. reflexivity.
Defined.

Lemma get_cached_news_twice_witness :
  @get_cached_news (sample_library 200)
    (tick 899 (cache_set CACHE_KEY sample_posts 900 (count_fetch empty_world)))
  = (Some sample_posts,
     tick 899 (cache_set CACHE_KEY sample_posts 900 (count_fetch empty_world)))
  /\
  feed_fetches
    (snd (@get_cached_news (sample_library 200)
            (tick 900 (cache_set CACHE_KEY sample_posts 900
                         (count_fetch empty_world)))))
  = 2%nat.
Proof.
  destruct (@get_cached_news_twice (sample_library 200) empty_world
              sample_posts
              (cache_set CACHE_KEY sample_posts 900 (count_fetch empty_world)))
    as [Hin Hout].
  - left. vm_compute. reflexivity.
  - vm_compute. reflexivity.
  - discriminate.
  - split; [apply Hin; lia|apply Hout; lia].
Defined.

Lemma index_after_posts_witness :
  @index (sample_library 200)
    (tick 60 (cache_set CACHE_KEY sample_posts 900 (count_fetch empty_world)))
  = (Some (take 6 sample_posts),
     tick 60 (cache_set CACHE_KEY sample_posts 900 (count_fetch empty_world)))
  /\ (length (take 6 sample_posts) <= 6)%nat.
Proof.
  apply (@index_after_posts (sample_library 200) empty_world sample_posts).
  - left. vm_compute. reflexivity.
  - vm_compute. reflexivity.
  - discriminate.
  - lia.
Defined.
